(** * cps-config: the package loader (src/loader.cpp)

    A shallow embedding of the validation and deserialization layer of
    cps-config, and the properties its specification states about it.

    The loader reads a parsed JSON document (a [Json::Value]) and builds a
    [Package], or reports the first failure as a [tl::unexpected] message.
    Besides these two results the C++ code has two more ways to leave a
    function: [from_string] calls [abort()], and JsonCpp raises
    [Json::LogicError] from [asString] and from member access on a node that
    is neither an object nor null.  All four are results of the model. *)

From Stdlib Require Import Ascii String.
From stdpp Require Import base option list strings pretty gmap fin_maps countable.

Set Warnings "-register-all".
Local Open Scope string_scope.

(** ** Results of a call *)

Inductive outcome (A : Type) : Type :=
| Ok (a : A)                (* the [tl::expected] holds a value *)
| Unexpected (e : string)   (* [tl::unexpected(e)] *)
| Abort (cerr : string)     (* [abort()], after [cerr] was written to std::cerr *)
| LogicError (what : string). (* an uncaught [Json::LogicError] *)

Arguments Ok {A} a.
Arguments Unexpected {A} e.
Arguments Abort {A} cerr.
Arguments LogicError {A} what.

(** [and_then] of [tl::expected]; it is also what the [TRY] macro and [map]
    with an aborting function do: go on with the value, or leave with what
    stopped the call. *)
Definition and_then {A B : Type} (r : outcome A) (f : A -> outcome B) : outcome B :=
  match r with
  | Ok a => f a
  | Unexpected e => Unexpected e
  | Abort c => Abort c
  | LogicError w => LogicError w
  end.

(** [map] of [tl::expected] with a function that always returns. *)
Definition map {A B : Type} (f : A -> B) (r : outcome A) : outcome B :=
  and_then r (fun a => Ok (f a)).

(** Modelled from the spec: error.hpp is not part of the sources.  [TRY(e)]
    evaluates [e]; a failure short-circuits the enclosing function, which
    returns that failure; otherwise the macro yields the value. *)
Notation "'TRY' x <- e ; k" := (and_then e (fun x => k))
  (at level 20, x name, e at level 100, k at level 200, only parsing).

Definition is_Ok {A : Type} (r : outcome A) : bool :=
  match r with Ok _ => true | _ => false end.

(** ** fmt::format, for the replacement field [{}] *)

Fixpoint format (fmt : string) (args : list string) : string :=
  match fmt with
  | EmptyString => EmptyString
  | String "{"%char (String "}"%char rest) =>
      match args with
      | a :: args' => a +:+ format rest args'
      | [] => format rest []
      end
  | String c rest => String c (format rest args)
  end.

Definition newline : string := String "010"%char EmptyString.

(** ** JsonCpp values *)

Module Json.

(** The constructors are JsonCpp's [ValueType] tags.  A real is carried by
    the text [valueToString] prints for it; the members of an object are
    listed in the order an iterator visits them. *)
Inductive Value : Type :=
| nullValue
| intValue (i : Z)
| uintValue (u : N)
| realValue (text : string)
| stringValue (s : string)
| booleanValue (b : bool)
| arrayValue (elems : list Value)
| objectValue (members : list (string * Value)).

Definition isString (v : Value) : bool :=
  match v with stringValue _ => true | _ => false end.

Definition isArray (v : Value) : bool :=
  match v with arrayValue _ => true | _ => false end.

Definition isObject (v : Value) : bool :=
  match v with objectValue _ => true | _ => false end.

Fixpoint find_member (members : list (string * Value)) (key : string) : option Value :=
  match members with
  | [] => None
  | (k, v) :: rest => if String.eqb k key then Some v else find_member rest key
  end.

(** [Value::find]: asserts that the node is an object or null. *)
Definition find (v : Value) (key : string) : outcome (option Value) :=
  match v with
  | nullValue => Ok None
  | objectValue members => Ok (find_member members key)
  | _ => LogicError "in Json::Value::find(begin, end): requires objectValue or nullValue"
  end.

Definition isMember (v : Value) (key : string) : outcome bool :=
  map (fun found => bool_decide (is_Some found)) (find v key).

(** [operator[] const]: the member, or the null value when there is none. *)
Definition index (v : Value) (key : string) : outcome Value :=
  map (fun found => default nullValue found) (find v key).

Definition asString (v : Value) : outcome string :=
  match v with
  | nullValue => Ok ""
  | stringValue s => Ok s
  | booleanValue b => Ok (if b then "true" else "false")
  | intValue i => Ok (pretty i)
  | uintValue u => Ok (pretty u)
  | realValue text => Ok text
  | arrayValue _ | objectValue _ => LogicError "Type is not convertible to string"
  end.

(** What a range-for over the node visits. *)
Definition elements (v : Value) : list Value :=
  match v with
  | arrayValue elems => elems
  | objectValue members => members.*2
  | _ => []
  end.

(** The (key, value) pairs between [begin()] and [end()] of an object. *)
Definition entries (v : Value) : list (string * Value) :=
  match v with
  | objectValue members => members
  | _ => []
  end.

Definition empty (v : Value) : bool :=
  match v with
  | nullValue => true
  | arrayValue elems => bool_decide (length elems = 0)
  | objectValue members => bool_decide (length members = 0)
  | _ => false
  end.

End Json.

Import Json.

(** ** The data model (loader.hpp) *)

(** Modelled from the spec: loader.hpp is not part of the sources.  The
    enumerators are the ones loader.cpp names; [LangValues] is the mapping
    from language to list of strings that [get_lang_values] fills with
    [operator[]] and [emplace].  A value-initialised one has no key: the
    array branch relies on it, since [emplace] leaves a key that is already
    there untouched. *)
Inductive KnownLanguages : Type := C | CPP | FORTRAN.

#[global] Instance KnownLanguages_eq_dec : EqDecision KnownLanguages.
Proof. solve_decision. Defined.

#[global] Instance KnownLanguages_countable : Countable KnownLanguages.
Proof.
  refine (inj_countable'
            (fun l => match l with C => 0 | CPP => 1 | FORTRAN => 2 end)
            (fun n => match n with 0 => C | 1 => CPP | _ => FORTRAN end) _).
  intros []; reflexivity.
Defined.

Abbreviation LangValues := (gmap KnownLanguages (list string)).

(** The enumeration [Type] of loader.hpp. *)
Inductive ComponentType : Type :=
| EXECUTABLE | ARCHIVE | DYLIB | MODULE | INTERFACE | SYMBOLIC.

#[global] Instance ComponentType_eq_dec : EqDecision ComponentType.
Proof. solve_decision. Defined.

Record Component : Type := Build_Component
  { type : ComponentType;
    compile_flags : LangValues;
    includes : LangValues }.

Record Package : Type := Build_Package
  { name : string;
    cps_version : string;
    components : gmap string Component;
    default_components : option (list string) }.

(** [std::unordered_map::emplace]: inserts unless the key is already there. *)
Definition emplace {K V : Type} `{Countable K} (k : K) (v : V) (m : gmap K V) : gmap K V :=
  match m !! k with
  | Some _ => m
  | None => <[k := v]> m
  end.

(** What a consumer reads for a language: the stored list, or the empty one. *)
Definition resolve (lv : LangValues) (l : KnownLanguages) : list string :=
  default [] (lv !! l).

(** ** The loader (loader.cpp) *)

(** The two instantiations of [get_optional<T>] the program has. *)
Inductive FieldType : Type := T_string | T_string_vector.

Definition field (T : FieldType) : Type :=
  match T with
  | T_string => string
  | T_string_vector => list string
  end.

(** The loop [for (auto && v : value) ret.emplace_back(v.asString());]. *)
Fixpoint asString_each (elems : list Value) : outcome (list string) :=
  match elems with
  | [] => Ok []
  | v :: rest =>
      TRY s <- asString v;
      TRY ret <- asString_each rest;
      Ok (s :: ret)
  end.

Definition from_string (str : string) : outcome ComponentType :=
  if String.eqb str "executable" then Ok EXECUTABLE
  else if String.eqb str "archive" then Ok ARCHIVE
  else if String.eqb str "dylib" then Ok DYLIB
  else if String.eqb str "module" then Ok MODULE
  else if String.eqb str "interfafce" then Ok INTERFACE
  else if String.eqb str "symbolic" then Ok SYMBOLIC
  else Abort ("Unknown type: " +:+ str +:+ newline).

Section Loader.

(** [typeid(T).name()] is implementation-defined. *)
Variable typeid_name : FieldType -> string.

(** The failure every instantiation of [get_optional] ends with. *)
Definition not_of_type {A : Type} (T : FieldType) (parent_name name : string) : outcome A :=
  Unexpected (format "Optional field {} in {} is not of type {}!"
                     [name; parent_name; typeid_name T]).

Definition get_optional (T : FieldType) (parent : Value) (parent_name name : string)
  : outcome (option (field T)) :=
  TRY member <- isMember parent name;
  if negb member then Ok None
  else
    TRY value <- index parent name;
    match T return outcome (option (field T)) with
    | T_string =>
        if isString value
        then TRY s <- asString value; Ok (Some s)
        else not_of_type T_string parent_name name
    | T_string_vector =>
        if isArray value
        then TRY ret <- asString_each (elements value); Ok (Some ret)
        else not_of_type T_string_vector parent_name name
    end.

(** [get_required<std::string>], the one instantiation of the template:
    [return "bad"] converts to a [tl::expected] holding the value. *)
Definition get_required (parent : Value) (parent_name name : string) : outcome string :=
  TRY member <- isMember parent name;
  if negb member
  then Unexpected (format "Required field {} in {} is missing!" [name; parent_name])
  else
    and_then (get_optional T_string parent parent_name name)
             (fun v => match v with
                       | Some s => Ok s
                       | None => Ok "bad"
                       end).

Definition get_lang_values (parent : Value) (parent_name name : string)
  : outcome LangValues :=
  let ret : LangValues := ∅ in
  TRY member <- isMember parent name;
  if negb member then Ok ret
  else
    TRY value <- index parent name;
    if isObject value then
      let cb := fun r : option (list string) => default [] r in
      TRY c <- map cb (get_optional T_string_vector value name "C");
      let ret := <[C := c]> ret in
      TRY cpp <- map cb (get_optional T_string_vector value name "C++");
      let ret := <[CPP := cpp]> ret in
      TRY fortran <- map cb (get_optional T_string_vector value name "Fortran");
      let ret := <[FORTRAN := fortran]> ret in
      Ok ret
    else if isArray value then
      TRY fin <- asString_each (elements value);
      Ok (foldl (fun ret v => emplace v fin ret) ret [C; CPP; FORTRAN])
    else
      Unexpected (format "Section {} of {} is neither an object nor an array!"
                         [parent_name; name]).

(** The body of the loop over the entries of [Components]. *)
Definition get_component (key : string) (comp : Value) : outcome Component :=
  if negb (isObject comp)
  then Unexpected (format "Component {} is not an object" [key])
  else
    TRY type <- and_then (get_required comp "Component" "Type") from_string;
    TRY cflags <- get_lang_values comp "Component" "Compile-Flags";
    TRY includes <- get_lang_values comp "Component" "Includes";
    Ok (Build_Component type cflags includes).

Fixpoint get_components_loop (entries : list (string * Value))
         (components : gmap string Component)
  : outcome (gmap string Component) :=
  match entries with
  | [] => Ok components
  | (key, comp) :: rest =>
      TRY c <- get_component key comp;
      get_components_loop rest (<[key := c]> components)
  end.

Definition get_components (parent : Value) (parent_name name : string)
  : outcome (gmap string Component) :=
  TRY member <- isMember parent "Components";
  if negb member
  then Unexpected (format "Required field Components of {} is missing!" [parent_name])
  else
    TRY compmap <- index parent "Components";
    if negb (isObject compmap)
    then Unexpected (format "Components field of {} is not an object" [parent_name])
    else if empty compmap
    then Unexpected (format "Components field of {} is empty, but must have at least one component"
                            [parent_name])
    else get_components_loop (entries compmap) ∅.

(** [load], from the parsed document on. *)
Definition load (root : Value) : outcome Package :=
  TRY name <- get_required root "package" "Name";
  TRY cps_version <- get_required root "package" "Cps-Version";
  TRY components <- get_components root "package" "Components";
  TRY default_comps <- get_optional T_string_vector root "package" "Default-Components";
  Ok (Build_Package name cps_version components default_comps).

End Loader.

(** ** The failure taxonomy *)

(** Modelled from the spec: the code reports every failure as a message; the
    kinds are the names the specification gives them.  Each message the
    loader builds is listed under the kind its condition has; no message has
    the kind [UnknownEnumValue], whose condition ends in [abort()]. *)
Inductive ErrorKind : Type :=
| MissingRequiredField
| WrongFieldType
| EmptyRequiredCollection
| MalformedSection
| UnknownEnumValue.

Inductive has_kind : ErrorKind -> string -> Prop :=
| required_missing name parent_name :
    has_kind MissingRequiredField
             (format "Required field {} in {} is missing!" [name; parent_name])
| components_missing parent_name :
    has_kind MissingRequiredField
             (format "Required field Components of {} is missing!" [parent_name])
| optional_mismatch name parent_name type_name :
    has_kind WrongFieldType
             (format "Optional field {} in {} is not of type {}!"
                     [name; parent_name; type_name])
| components_not_object parent_name :
    has_kind WrongFieldType
             (format "Components field of {} is not an object" [parent_name])
| component_not_object key :
    has_kind WrongFieldType (format "Component {} is not an object" [key])
| components_empty parent_name :
    has_kind EmptyRequiredCollection
             (format "Components field of {} is empty, but must have at least one component"
                     [parent_name])
| section_malformed parent_name name :
    has_kind MalformedSection
             (format "Section {} of {} is neither an object nor an array!"
                     [parent_name; name]).

(** The vocabulary of the [Type] field, as the specification lists it. *)
Definition spellings : list (string * ComponentType) :=
  [ ("executable", EXECUTABLE); ("archive", ARCHIVE); ("dylib", DYLIB);
    ("module", MODULE); ("interfafce", INTERFACE); ("symbolic", SYMBOLIC) ].

(** A JSON value that [asString] converts. *)
Definition scalar (v : Value) : bool :=
  match v with
  | arrayValue _ | objectValue _ => false
  | _ => true
  end.

(** The list a language key of an object-form table stands for: the decoded
    array, or the empty list when the object has no such key. *)
Definition lang_list (typeid_name : FieldType -> string)
           (value : Value) (name key : string) : outcome (list string) :=
  map (fun r : option (list string) => default [] r)
      (get_optional typeid_name T_string_vector value name key).

(** The table the array form and the object form fill, key after key. *)
Definition table (c cpp fortran : list string) : LangValues :=
  <[FORTRAN := fortran]> (<[CPP := cpp]> (<[C := c]> ∅)).

(** A result whose table stores the empty list under every language. *)
Definition stores_every_language (r : outcome LangValues) : Prop :=
  exists lv, r = Ok lv /\ forall l : KnownLanguages, lv !! l = Some [].

(** ** The command line (main.cpp) *)

Module printer.

(** Modelled from the spec: printer.hpp is not part of the sources.  [Config]
    holds the three booleans [main] assigns: emit compile flags, emit
    includes, emit defines. *)
Record Config : Type := Build_Config
  { cflags : bool;
    includes : bool;
    defines : bool }.

End printer.

(** How [main] ends. *)
Inductive main_result : Type :=
| Returns (status : Z) (stderr : string)
    (* [return status], after [stderr] was printed to stderr *)
| Pkgconf (package : Package) (conf : printer.Config)
    (* [printer::pkgconf(package, conf)], then [return 0] *)
| runtime_error (what : string)
    (* the exception the [map_error] callback throws *)
| Aborted (cerr : string)
| Json_LogicError (what : string).

(** The loop over [argv[3]], ..., [argv[argc - 1]] in mode pkgconf: the
    configuration it leaves, or the argument it stops at. *)
Fixpoint pkgconf_args (args : list string) (conf : printer.Config)
  : string + printer.Config :=
  match args with
  | [] => inr conf
  | arg :: rest =>
      if String.eqb arg "--cflags" then pkgconf_args rest conf
      else if String.eqb arg "--cflags-only-other" then
        pkgconf_args rest
          (printer.Build_Config (printer.cflags conf) false (printer.defines conf))
      else if String.eqb arg "--cflags-only-I" then
        pkgconf_args rest (printer.Build_Config false (printer.includes conf) false)
      else inl arg
  end.

Section Main.

Variable typeid_name : FieldType -> string.

(** The document [file >> root] parses from the file at a path. *)
Variable document : string -> Value.

(** The value-initialised [printer::Config conf{}]. *)
Variable conf0 : printer.Config.

Definition main (argv : list string) : main_result :=
  match argv with
  | _ :: mode :: cps :: args =>
      match load typeid_name (document cps) with
      | Unexpected v => runtime_error v
      | Abort cerr => Aborted cerr
      | LogicError what => Json_LogicError what
      | Ok package =>
          if String.eqb mode "pkgconf" then
            match pkgconf_args args conf0 with
            | inl arg =>
                Returns 1 (format "Unknown command like argument {}" [arg] +:+ newline)
            | inr conf => Pkgconf package conf
            end
          else Returns 1 (format "Unknown mode {}" [mode] +:+ newline)
      end
  | _ =>
      Returns 1 ("Error: Got wrong number of arguments, expected at least 3" +:+ newline)
  end.

End Main.

(** The arguments the pkgconf loop accepts. *)
Definition pkgconf_flags : list string :=
  ["--cflags"; "--cflags-only-other"; "--cflags-only-I"].

(** Case analysis along the comparisons of [from_string]. *)
Ltac by_spelling str :=
  repeat match goal with
         | |- context [String.eqb str ?s] =>
             destruct (String.eqb_spec str s); [subst str|]
         end.

(** Case analysis along the comparisons of the pkgconf loop. *)
Ltac by_flag arg :=
  repeat match goal with
         | |- context [String.eqb arg ?s] =>
             destruct (String.eqb_spec arg s); [subst arg|]
         | H : context [String.eqb arg ?s] |- _ =>
             destruct (String.eqb_spec arg s); [subst arg|]
         end.

(** ** Member access *)

Lemma isMember_true_inv parent name :
  isMember parent name = Ok true ->
  exists members v, parent = objectValue members /\ find_member members name = Some v.
Proof.
  destruct parent; try discriminate.
  unfold isMember; simpl. intros H.
  destruct (find_member members name) as [v|] eqn:E.
  - eauto.
  - discriminate H.
Qed.

Lemma isMember_object members name :
  isMember (objectValue members) name
  = Ok (bool_decide (is_Some (find_member members name))).
Proof. reflexivity. Qed.

Lemma isMember_found members name v :
  find_member members name = Some v ->
  isMember (objectValue members) name = Ok true.
Proof.
  intros E. rewrite isMember_object, E. reflexivity.
Qed.

Lemma isMember_not_found members name :
  find_member members name = None ->
  isMember (objectValue members) name = Ok false.
Proof.
  intros E. rewrite isMember_object, E. reflexivity.
Qed.

Lemma index_found members name v :
  find_member members name = Some v ->
  index (objectValue members) name = Ok v.
Proof. intros E. unfold index; simpl. rewrite E. reflexivity. Qed.

Lemma isMember_index_object parent name :
  isMember parent name = Ok true ->
  exists v, index parent name = Ok v.
Proof.
  intros H. destruct (isMember_true_inv _ _ H) as (members & v & -> & E).
  exists v. apply index_found, E.
Qed.

(** A node that is neither an object nor null has no membership answer. *)
Lemma isMember_throws parent name :
  isObject parent = false -> parent <> nullValue ->
  isMember parent name
  = LogicError "in Json::Value::find(begin, end): requires objectValue or nullValue".
Proof.
  destruct parent; simpl; intros Ho Hn; try reflexivity; try discriminate.
  contradiction.
Qed.

(** ** The field accessor *)

Section Accessor.

Variable typeid_name : FieldType -> string.

Lemma get_optional_absent T parent parent_name name :
  isMember parent name = Ok false ->
  get_optional typeid_name T parent parent_name name = Ok None.
Proof. intros H. unfold get_optional. rewrite H. reflexivity. Qed.

Lemma get_optional_string parent parent_name name value :
  isMember parent name = Ok true ->
  index parent name = Ok value ->
  get_optional typeid_name T_string parent parent_name name
  = match value with
    | stringValue s => Ok (Some s)
    | _ => Unexpected (format "Optional field {} in {} is not of type {}!"
                              [name; parent_name; typeid_name T_string])
    end.
Proof.
  intros Hm Hi. unfold get_optional. rewrite Hm, Hi; simpl.
  destruct value; reflexivity.
Qed.

Lemma get_optional_string_vector parent parent_name name value :
  isMember parent name = Ok true ->
  index parent name = Ok value ->
  get_optional typeid_name T_string_vector parent parent_name name
  = match value with
    | arrayValue elems => map Some (asString_each elems)
    | _ => Unexpected (format "Optional field {} in {} is not of type {}!"
                              [name; parent_name; typeid_name T_string_vector])
    end.
Proof.
  intros Hm Hi. unfold get_optional. rewrite Hm, Hi; simpl.
  destruct value; reflexivity.
Qed.

Lemma asString_each_Some elems :
  map (@Some (list string)) (asString_each elems) <> Ok None.
Proof. destruct (asString_each elems); discriminate. Qed.

Lemma get_optional_present T parent parent_name name :
  isMember parent name = Ok true ->
  get_optional typeid_name T parent parent_name name <> Ok None.
Proof.
  intros Hm. destruct (isMember_index_object _ _ Hm) as [value Hi].
  destruct T.
  - rewrite (get_optional_string _ _ _ value Hm Hi). destruct value; discriminate.
  - rewrite (get_optional_string_vector _ _ _ value Hm Hi).
    destruct value; try discriminate. apply asString_each_Some.
Qed.

End Accessor.

Lemma asString_each_strings (l : list string) :
  asString_each (stringValue <$> l) = Ok l.
Proof.
  induction l as [|s l IH]; [reflexivity|].
  rewrite fmap_cons. simpl. rewrite IH. reflexivity.
Qed.

Lemma asString_scalar v : scalar v = true -> is_Ok (asString v) = true.
Proof. destruct v; simpl; congruence. Qed.

Lemma asString_each_scalars elems :
  forallb scalar elems = true -> exists fin, asString_each elems = Ok fin.
Proof.
  induction elems as [|v elems IH]; simpl; [eauto|].
  intros H. apply andb_prop in H as [Hv Hr].
  destruct (IH Hr) as [fin ->].
  destruct v; simpl in *; try discriminate; eauto.
Qed.

(** ** The type tag parser *)

Lemma from_string_Ok_iff (str : string) (t : ComponentType) :
  from_string str = Ok t <-> (str, t) ∈ spellings.
Proof.
  unfold from_string, spellings. rewrite !elem_of_cons, elem_of_nil.
  by_spelling str; simpl;
    (split; [intros [= <-]; auto 10
            | intros H; decompose [or] H; first [congruence | contradiction]]).
Qed.

Lemma from_string_unknown (str : string) :
  str ∉ spellings.*1 ->
  from_string str = Abort ("Unknown type: " +:+ str +:+ newline).
Proof.
  unfold from_string, spellings.
  intros Hn. by_spelling str; simpl in *;
    [exfalso; apply Hn; rewrite !elem_of_cons; auto 10 ..|].
  reflexivity.
Qed.

(** C5: [from_string] maps exactly the six case-sensitive spellings
    executable, archive, dylib, module, interfafce and symbolic to
    EXECUTABLE, ARCHIVE, DYLIB, MODULE, INTERFACE and SYMBOLIC; every other
    string, a case variant included, takes the unknown-value path, which
    writes the diagnostic and aborts. *)
Theorem from_string_vocabulary (str : string) :
  (forall t, from_string str = Ok t <-> (str, t) ∈ spellings) /\
  (str ∉ spellings.*1 ->
   from_string str = Abort ("Unknown type: " +:+ str +:+ newline)).
Proof.
  split; [intros t; apply from_string_Ok_iff | apply from_string_unknown].
Qed.

Lemma from_string_vocabulary_witness :
  ("Executable" ∉ spellings.*1) /\
  from_string "Executable" = Abort ("Unknown type: " +:+ "Executable" +:+ newline).
Proof.
  assert (H : "Executable" ∉ spellings.*1)
    by (apply (bool_decide_unpack _); vm_compute; exact I).
  split; [exact H|].
  exact (proj2 (from_string_vocabulary "Executable") H).
Defined.

(** ** The required-field resolver *)

(** C8: when the field is absent from the parent, [get_required] returns the
    missing-field failure, whose message names the field and the parent; when
    the field is present and [get_optional] reports a failure, [get_required]
    returns that same failure. *)
Theorem get_required_resolves (typeid_name : FieldType -> string)
        (parent : Value) (parent_name name : string) :
  (isMember parent name = Ok false ->
   get_required typeid_name parent parent_name name
   = Unexpected ("Required field " +:+ name +:+ " in " +:+ parent_name +:+ " is missing!")
   /\ has_kind MissingRequiredField
               ("Required field " +:+ name +:+ " in " +:+ parent_name +:+ " is missing!")) /\
  (forall e,
      isMember parent name = Ok true ->
      get_optional typeid_name T_string parent parent_name name = Unexpected e ->
      get_required typeid_name parent parent_name name = Unexpected e).
Proof.
  split.
  - intros Hm. split.
    + unfold get_required. rewrite Hm. reflexivity.
    + exact (required_missing name parent_name).
  - intros e Hm Ho. unfold get_required. rewrite Hm, Ho. reflexivity.
Qed.

Lemma get_required_resolves_witness :
  get_required (fun _ => "string")
               (objectValue [("Cps-Version", stringValue "0.9")]) "package" "Name"
  = Unexpected "Required field Name in package is missing!"
  /\ get_required (fun _ => "string")
                  (objectValue [("Name", intValue 3)]) "package" "Name"
     = Unexpected "Optional field Name in package is not of type string!".
Proof.
  split.
  - exact (proj1 (proj1 (get_required_resolves (fun _ => "string")
             (objectValue [("Cps-Version", stringValue "0.9")]) "package" "Name")
             eq_refl)).
  - exact (proj2 (get_required_resolves (fun _ => "string")
             (objectValue [("Name", intValue 3)]) "package" "Name")
             _ eq_refl eq_refl).
Defined.

(** C10: once the membership check of [get_required] has passed,
    [get_optional] does not answer "absent", so the branch that returns
    "bad" is not taken: the result is the decoded string, or the type
    mismatch [get_optional] reports. *)
Theorem get_required_present (typeid_name : FieldType -> string)
        (parent : Value) (parent_name name : string) :
  isMember parent name = Ok true ->
  get_optional typeid_name T_string parent parent_name name <> Ok None /\
  ((exists s,
       get_optional typeid_name T_string parent parent_name name = Ok (Some s) /\
       get_required typeid_name parent parent_name name = Ok s) \/
   (get_optional typeid_name T_string parent parent_name name
    = Unexpected (format "Optional field {} in {} is not of type {}!"
                         [name; parent_name; typeid_name T_string]) /\
    get_required typeid_name parent parent_name name
    = Unexpected (format "Optional field {} in {} is not of type {}!"
                         [name; parent_name; typeid_name T_string]))).
Proof.
  intros Hm. split; [by apply get_optional_present|].
  destruct (isMember_index_object _ _ Hm) as [value Hi].
  unfold get_required. rewrite Hm; simpl.
  rewrite (get_optional_string _ _ _ _ value Hm Hi).
  destruct value; simpl; eauto.
Qed.

Lemma get_required_present_witness :
  isMember (objectValue [("Name", stringValue "zlib")]) "Name" = Ok true /\
  get_optional (fun _ => "string") T_string
               (objectValue [("Name", stringValue "zlib")]) "package" "Name"
  <> Ok None.
Proof.
  split; [reflexivity|].
  apply (get_required_present (fun _ => "string")
           (objectValue [("Name", stringValue "zlib")]) "package" "Name").
  reflexivity.
Defined.

(** ** The language-value table reconciler *)

Section Reconciler.

Variable typeid_name : FieldType -> string.

Lemma table_lookup c cpp fortran :
  table c cpp fortran !! C = Some c /\
  table c cpp fortran !! CPP = Some cpp /\
  table c cpp fortran !! FORTRAN = Some fortran.
Proof.
  unfold table. split; [|split].
  - rewrite !lookup_insert_ne by discriminate. apply lookup_insert_eq.
  - rewrite lookup_insert_ne by discriminate. apply lookup_insert_eq.
  - apply lookup_insert_eq.
Qed.

Lemma emplace_each (fin : list string) :
  foldl (fun ret v => emplace v fin ret) (∅ : LangValues) [C; CPP; FORTRAN]
  = table fin fin fin.
Proof.
  unfold table, emplace; simpl.
  rewrite lookup_empty.
  rewrite lookup_insert_ne, lookup_empty by discriminate.
  rewrite !lookup_insert_ne, lookup_empty by discriminate.
  reflexivity.
Qed.

Lemma get_lang_values_missing parent parent_name name :
  isMember parent name = Ok false ->
  get_lang_values typeid_name parent parent_name name = Ok ∅.
Proof. intros Hm. unfold get_lang_values. rewrite Hm. reflexivity. Qed.

Lemma get_lang_values_array parent parent_name name elems :
  isMember parent name = Ok true ->
  index parent name = Ok (arrayValue elems) ->
  get_lang_values typeid_name parent parent_name name
  = map (fun fin => table fin fin fin) (asString_each elems).
Proof.
  intros Hm Hi. unfold get_lang_values. rewrite Hm, Hi; simpl.
  destruct (asString_each elems) as [fin| | |]; unfold map, and_then;
    [f_equal; apply emplace_each | reflexivity ..].
Qed.

Lemma get_lang_values_object parent parent_name name value :
  isMember parent name = Ok true ->
  index parent name = Ok value ->
  isObject value = true ->
  get_lang_values typeid_name parent parent_name name
  = (TRY c <- lang_list typeid_name value name "C";
     TRY cpp <- lang_list typeid_name value name "C++";
     TRY fortran <- lang_list typeid_name value name "Fortran";
     Ok (table c cpp fortran)).
Proof.
  intros Hm Hi Ho. unfold get_lang_values. rewrite Hm, Hi; simpl.
  rewrite Ho. reflexivity.
Qed.

Lemma get_optional_find T v1 v2 parent_name key :
  find v1 key = find v2 key ->
  get_optional typeid_name T v1 parent_name key
  = get_optional typeid_name T v2 parent_name key.
Proof.
  intros H. unfold get_optional, isMember, index. rewrite H. reflexivity.
Qed.

End Reconciler.

(** C2, as stated, fails: a component without [Compile-Flags] gets a table
    that stores no key at all. *)
Lemma get_lang_values_absent_stores_no_key :
  isMember (objectValue [("Type", stringValue "archive")]) "Compile-Flags" = Ok false /\
  ~ stores_every_language
      (get_lang_values (fun _ => "") (objectValue [("Type", stringValue "archive")])
                       "Component" "Compile-Flags").
Proof.
  split; [reflexivity|].
  intros (lv & Hr & Hl). specialize (Hl C).
  rewrite get_lang_values_missing in Hr by reflexivity.
  injection Hr as <-. rewrite lookup_empty in Hl. discriminate Hl.
Qed.

(** C2, amended: when the field is absent from its component object,
    [get_lang_values] returns the value-initialised table, which stores no
    language key; each of C, C++ and Fortran resolves to the empty list when
    it is read with the empty list as default. *)
Theorem get_lang_values_absent (typeid_name : FieldType -> string)
        (parent : Value) (parent_name name : string) :
  isMember parent name = Ok false ->
  exists lv,
    get_lang_values typeid_name parent parent_name name = Ok lv /\
    forall l : KnownLanguages, lv !! l = None /\ resolve lv l = [].
Proof.
  intros Hm. exists ∅. split; [by apply get_lang_values_missing|].
  intros l. unfold resolve. rewrite lookup_empty. split; reflexivity.
Qed.

Lemma get_lang_values_absent_witness :
  exists lv,
    get_lang_values (fun _ => "") (objectValue [("Type", stringValue "archive")])
                    "Component" "Includes" = Ok lv /\
    forall l : KnownLanguages, lv !! l = None /\ resolve lv l = [].
Proof.
  apply (get_lang_values_absent (fun _ => "")
           (objectValue [("Type", stringValue "archive")]) "Component" "Includes").
  reflexivity.
Defined.

(** C3: a field in flat-array form is decoded once, element by element, and
    the one resulting list is stored under each of C, C++ and Fortran; for an
    array of strings that list is the strings themselves. *)
Theorem get_lang_values_broadcast (typeid_name : FieldType -> string)
        (parent : Value) (parent_name name : string) (elems : list Value) :
  isMember parent name = Ok true ->
  index parent name = Ok (arrayValue elems) ->
  (forall fin,
      asString_each elems = Ok fin ->
      exists lv,
        get_lang_values typeid_name parent parent_name name = Ok lv /\
        forall l : KnownLanguages, lv !! l = Some fin) /\
  (forall strs : list string,
      elems = stringValue <$> strs ->
      exists lv,
        get_lang_values typeid_name parent parent_name name = Ok lv /\
        forall l : KnownLanguages, lv !! l = Some strs) /\
  (forallb scalar elems = true ->
   is_Ok (get_lang_values typeid_name parent parent_name name) = true).
Proof.
  intros Hm Hi.
  assert (Hfin : forall fin, asString_each elems = Ok fin ->
                 exists lv,
                   get_lang_values typeid_name parent parent_name name = Ok lv /\
                   forall l : KnownLanguages, lv !! l = Some fin).
  { intros fin Hd. exists (table fin fin fin). split.
    - rewrite (get_lang_values_array _ _ _ _ elems Hm Hi), Hd. reflexivity.
    - intros []; apply table_lookup. }
  split; [exact Hfin|]. split.
  - intros strs ->. apply Hfin, asString_each_strings.
  - intros Hs. destruct (asString_each_scalars _ Hs) as [fin Hd].
    destruct (Hfin fin Hd) as (lv & -> & _). reflexivity.
Qed.

Lemma get_lang_values_broadcast_witness :
  exists lv,
    get_lang_values (fun _ => "")
                    (objectValue [("Compile-Flags", arrayValue [stringValue "-O2"])])
                    "Component" "Compile-Flags" = Ok lv /\
    forall l : KnownLanguages, lv !! l = Some ["-O2"].
Proof.
  apply (proj1 (proj2 (get_lang_values_broadcast (fun _ => "")
           (objectValue [("Compile-Flags", arrayValue [stringValue "-O2"])])
           "Component" "Compile-Flags" [stringValue "-O2"] eq_refl eq_refl))
           ["-O2"]).
  reflexivity.
Defined.

(** C4: in object form each of the keys "C", "C++" and "Fortran" is decoded
    on its own as a list of strings and stored under its language; a key the
    object does not have gives the empty list; the other keys of the object
    are not read, so two objects that agree on the three keys give the same
    result. *)
Theorem get_lang_values_per_language (typeid_name : FieldType -> string)
        (parent : Value) (parent_name name : string) (value : Value) :
  isMember parent name = Ok true ->
  index parent name = Ok value ->
  isObject value = true ->
  (forall c cpp fortran,
      lang_list typeid_name value name "C" = Ok c ->
      lang_list typeid_name value name "C++" = Ok cpp ->
      lang_list typeid_name value name "Fortran" = Ok fortran ->
      exists lv,
        get_lang_values typeid_name parent parent_name name = Ok lv /\
        lv !! C = Some c /\ lv !! CPP = Some cpp /\ lv !! FORTRAN = Some fortran) /\
  (forall key,
      isMember value key = Ok false ->
      lang_list typeid_name value name key = Ok []) /\
  (forall key strs,
      isMember value key = Ok true ->
      index value key = Ok (arrayValue (stringValue <$> strs)) ->
      lang_list typeid_name value name key = Ok strs) /\
  (forall parent' value',
      isMember parent' name = Ok true ->
      index parent' name = Ok value' ->
      isObject value' = true ->
      (forall key, key ∈ ["C"; "C++"; "Fortran"] -> find value' key = find value key) ->
      get_lang_values typeid_name parent' parent_name name
      = get_lang_values typeid_name parent parent_name name).
Proof.
  intros Hm Hi Ho. repeat apply conj.
  - intros c cpp fortran Hc Hcpp Hf. exists (table c cpp fortran). split.
    + rewrite (get_lang_values_object _ _ _ _ value Hm Hi Ho), Hc, Hcpp, Hf.
      reflexivity.
    + apply table_lookup.
  - intros key Hk. unfold lang_list.
    rewrite get_optional_absent by exact Hk. reflexivity.
  - intros key strs Hk Hv. unfold lang_list.
    rewrite (get_optional_string_vector _ _ _ _ _ Hk Hv), asString_each_strings.
    reflexivity.
  - intros parent' value' Hm' Hi' Ho' Hsame.
    rewrite (get_lang_values_object _ _ _ _ value Hm Hi Ho).
    rewrite (get_lang_values_object _ _ _ _ value' Hm' Hi' Ho').
    unfold lang_list.
    rewrite !(get_optional_find typeid_name T_string_vector value' value)
      by (apply Hsame; rewrite !elem_of_cons; auto).
    reflexivity.
Qed.

Lemma get_lang_values_per_language_witness :
  exists lv,
    get_lang_values (fun _ => "")
      (objectValue [("Compile-Flags",
                     objectValue [("C", arrayValue [stringValue "-std=c99"]);
                                  ("Rust", booleanValue true)])])
      "Component" "Compile-Flags" = Ok lv /\
    lv !! C = Some ["-std=c99"] /\ lv !! CPP = Some [] /\ lv !! FORTRAN = Some [].
Proof.
  apply (proj1 (get_lang_values_per_language (fun _ => "")
           (objectValue [("Compile-Flags",
                          objectValue [("C", arrayValue [stringValue "-std=c99"]);
                                       ("Rust", booleanValue true)])])
           "Component" "Compile-Flags"
           (objectValue [("C", arrayValue [stringValue "-std=c99"]);
                         ("Rust", booleanValue true)])
           eq_refl eq_refl eq_refl));
    reflexivity.
Defined.

(** The specification's example: the object with the one key "C". *)
Example get_lang_values_c99 :
  get_lang_values (fun _ => "")
    (objectValue [("Compile-Flags",
                   objectValue [("C", arrayValue [stringValue "-std=c99"])])])
    "Component" "Compile-Flags"
  = Ok (table ["-std=c99"] [] []).
Proof. reflexivity. Qed.

(** ** The component map builder *)

Section Builder.

Variable typeid_name : FieldType -> string.

Lemma get_components_entries parent parent_name name entry rest :
  isMember parent "Components" = Ok true ->
  index parent "Components" = Ok (objectValue (entry :: rest)) ->
  get_components typeid_name parent parent_name name
  = get_components_loop typeid_name (entry :: rest) ∅.
Proof.
  intros Hm Hi. unfold get_components. rewrite Hm, Hi. reflexivity.
Qed.

Lemma get_components_Ok_inv parent parent_name name components :
  get_components typeid_name parent parent_name name = Ok components ->
  exists entry rest,
    isMember parent "Components" = Ok true /\
    index parent "Components" = Ok (objectValue (entry :: rest)).
Proof.
  unfold get_components.
  destruct (isMember parent "Components") as [[|]| | |]; simpl; try discriminate.
  destruct (index parent "Components") as [compmap| | |]; simpl; try discriminate.
  destruct compmap as [| | | | | | |[|entry rest]]; simpl; try discriminate.
  eauto.
Qed.

(** The loop stops at the first entry that does not decode. *)
Lemma get_components_loop_stops decoded key comp rest components e :
  Forall (fun kv => is_Ok (get_component typeid_name kv.1 kv.2) = true) decoded ->
  get_component typeid_name key comp = Unexpected e ->
  get_components_loop typeid_name (decoded ++ (key, comp) :: rest) components
  = Unexpected e.
Proof.
  intros Hd He. revert components.
  induction Hd as [|[k v] decoded Hk _ IH]; intros components; simpl.
  - rewrite He. reflexivity.
  - simpl in Hk. destruct (get_component typeid_name k v); try discriminate.
    simpl. apply IH.
Qed.

(** A returned map holds every entry of the object, each one decoded. *)
Lemma get_components_loop_complete entries components m :
  get_components_loop typeid_name entries components = Ok m ->
  (forall k, is_Some (components !! k) -> is_Some (m !! k)) /\
  (forall key comp,
      (key, comp) ∈ entries ->
      is_Ok (get_component typeid_name key comp) = true /\ is_Some (m !! key)).
Proof.
  revert components.
  induction entries as [|[k v] entries IH]; intros components; simpl.
  - intros [= <-]. split; [auto|]. intros key comp H. by apply elem_of_nil in H.
  - destruct (get_component typeid_name k v) as [c| | |] eqn:Ec; simpl;
      try discriminate.
    intros Hl. destruct (IH _ Hl) as [Hkeep Hall]. split.
    + intros k' Hk'. apply Hkeep.
      destruct (decide (k = k')) as [->|Hne].
      * rewrite lookup_insert_eq. eauto.
      * rewrite lookup_insert_ne by exact Hne. exact Hk'.
    + intros key comp Hin. apply elem_of_cons in Hin as [[= -> ->]|Hin].
      * rewrite Ec. split; [reflexivity|].
        apply Hkeep. rewrite lookup_insert_eq. eauto.
      * apply Hall, Hin.
Qed.

End Builder.

(** C6: [get_components] fails with the missing-field message when
    [Components] is absent, with a wrong-type message when it is present and
    not an object, and with the empty-collection message when it is an object
    without entries; it goes on to the entries, and can return a map, only
    for an object with at least one entry. *)
Theorem get_components_validation (typeid_name : FieldType -> string)
        (parent : Value) (parent_name name : string) :
  (isMember parent "Components" = Ok false ->
   get_components typeid_name parent parent_name name
   = Unexpected ("Required field Components of " +:+ parent_name +:+ " is missing!")
   /\ has_kind MissingRequiredField
               ("Required field Components of " +:+ parent_name +:+ " is missing!")) /\
  (forall compmap,
      isMember parent "Components" = Ok true ->
      index parent "Components" = Ok compmap ->
      isObject compmap = false ->
      get_components typeid_name parent parent_name name
      = Unexpected ("Components field of " +:+ parent_name +:+ " is not an object")
      /\ has_kind WrongFieldType
                  ("Components field of " +:+ parent_name +:+ " is not an object")) /\
  (isMember parent "Components" = Ok true ->
   index parent "Components" = Ok (objectValue []) ->
   get_components typeid_name parent parent_name name
   = Unexpected ("Components field of " +:+ parent_name
                 +:+ " is empty, but must have at least one component")
   /\ has_kind EmptyRequiredCollection
               ("Components field of " +:+ parent_name
                +:+ " is empty, but must have at least one component")) /\
  (forall entry rest,
      isMember parent "Components" = Ok true ->
      index parent "Components" = Ok (objectValue (entry :: rest)) ->
      get_components typeid_name parent parent_name name
      = get_components_loop typeid_name (entry :: rest) ∅) /\
  (forall components,
      get_components typeid_name parent parent_name name = Ok components ->
      exists entry rest,
        isMember parent "Components" = Ok true /\
        index parent "Components" = Ok (objectValue (entry :: rest))).
Proof.
  repeat apply conj.
  - intros Hm. split; [|exact (components_missing parent_name)].
    unfold get_components. rewrite Hm. reflexivity.
  - intros compmap Hm Hi Ho. split; [|exact (components_not_object parent_name)].
    unfold get_components. rewrite Hm, Hi; simpl. rewrite Ho. reflexivity.
  - intros Hm Hi. split; [|exact (components_empty parent_name)].
    unfold get_components. rewrite Hm, Hi. reflexivity.
  - intros entry rest. apply get_components_entries.
  - intros components. apply get_components_Ok_inv.
Qed.

Lemma get_components_validation_witness :
  get_components (fun _ => "") (objectValue [("Name", stringValue "zlib")])
                 "package" "Components"
  = Unexpected "Required field Components of package is missing!"
  /\ get_components (fun _ => "") (objectValue [("Components", arrayValue [])])
                    "package" "Components"
     = Unexpected "Components field of package is not an object"
  /\ get_components (fun _ => "") (objectValue [("Components", objectValue [])])
                    "package" "Components"
     = Unexpected "Components field of package is empty, but must have at least one component".
Proof.
  split; [|split].
  - exact (proj1 (proj1 (get_components_validation (fun _ => "")
             (objectValue [("Name", stringValue "zlib")]) "package" "Components")
             eq_refl)).
  - exact (proj1 (proj1 (proj2 (get_components_validation (fun _ => "")
             (objectValue [("Components", arrayValue [])]) "package" "Components"))
             (arrayValue []) eq_refl eq_refl eq_refl)).
  - exact (proj1 (proj1 (proj2 (proj2 (get_components_validation (fun _ => "")
             (objectValue [("Components", objectValue [])]) "package" "Components")))
             eq_refl eq_refl)).
Defined.

(** ** The package assembler *)

Section Assembler.

Variable typeid_name : FieldType -> string.

Lemma get_required_found members parent_name name s :
  find_member members name = Some (stringValue s) ->
  get_required typeid_name (objectValue members) parent_name name = Ok s.
Proof.
  intros E. unfold get_required.
  rewrite (isMember_found _ _ _ E); simpl.
  rewrite (get_optional_string _ _ _ _ _ (isMember_found _ _ _ E) (index_found _ _ _ E)).
  reflexivity.
Qed.

(** [get_required] reads the parent through the one member it is asked for. *)
Lemma get_required_find r1 r2 parent_name name :
  find r1 name = find r2 name ->
  get_required typeid_name r1 parent_name name
  = get_required typeid_name r2 parent_name name.
Proof.
  intros H. unfold get_required.
  rewrite (get_optional_find typeid_name T_string r1 r2 parent_name name H).
  unfold isMember. rewrite H. reflexivity.
Qed.

(** A component object that has [Type] and neither of the two tables. *)
Lemma get_component_minimal key comp t :
  find_member comp "Type" = Some (stringValue t) ->
  find_member comp "Compile-Flags" = None ->
  find_member comp "Includes" = None ->
  get_component typeid_name key (objectValue comp)
  = (TRY type <- from_string t; Ok (Build_Component type ∅ ∅)).
Proof.
  intros Ht Hc Hi. unfold get_component; simpl.
  rewrite (get_required_found _ _ _ _ Ht); simpl.
  rewrite !get_lang_values_missing by (by apply isMember_not_found).
  reflexivity.
Qed.

Lemma load_minimal members n v key comp t :
  find_member members "Name" = Some (stringValue n) ->
  find_member members "Cps-Version" = Some (stringValue v) ->
  find_member members "Components" = Some (objectValue [(key, objectValue comp)]) ->
  find_member members "Default-Components" = None ->
  find_member comp "Type" = Some (stringValue t) ->
  find_member comp "Compile-Flags" = None ->
  find_member comp "Includes" = None ->
  load typeid_name (objectValue members)
  = (TRY type <- from_string t;
     Ok (Build_Package n v {[key := Build_Component type ∅ ∅]} None)).
Proof.
  intros Hn Hv Hcs Hd Ht Hc Hi. unfold load.
  rewrite (get_required_found _ _ _ _ Hn), (get_required_found _ _ _ _ Hv); simpl.
  rewrite (get_components_entries _ _ _ _ _ _
             (isMember_found _ _ _ Hcs) (index_found _ _ _ Hcs)); simpl.
  rewrite (get_component_minimal _ _ _ Ht Hc Hi).
  destruct (from_string t) as [type| | |]; simpl; try reflexivity.
  rewrite get_optional_absent by (by apply isMember_not_found).
  rewrite insert_empty. reflexivity.
Qed.

End Assembler.

(** C7: [load] extracts [Name], [Cps-Version], [Components] and
    [Default-Components] in this order; the failure of the first field that
    fails is the result of [load], and it is the same for every document with
    that field, whatever the later fields hold; a returned [Package] is made
    of the four extracted values; the loop over the components stops at the
    first entry that fails, and a returned component map holds every entry of
    [Components]. *)
Theorem load_first_failure (typeid_name : FieldType -> string) (root : Value) :
  (forall e,
      get_required typeid_name root "package" "Name" = Unexpected e ->
      load typeid_name root = Unexpected e) /\
  (forall n e,
      get_required typeid_name root "package" "Name" = Ok n ->
      get_required typeid_name root "package" "Cps-Version" = Unexpected e ->
      load typeid_name root = Unexpected e) /\
  (forall n v e,
      get_required typeid_name root "package" "Name" = Ok n ->
      get_required typeid_name root "package" "Cps-Version" = Ok v ->
      get_components typeid_name root "package" "Components" = Unexpected e ->
      load typeid_name root = Unexpected e) /\
  (forall n v c e,
      get_required typeid_name root "package" "Name" = Ok n ->
      get_required typeid_name root "package" "Cps-Version" = Ok v ->
      get_components typeid_name root "package" "Components" = Ok c ->
      get_optional typeid_name T_string_vector root "package" "Default-Components"
      = Unexpected e ->
      load typeid_name root = Unexpected e) /\
  (forall root' e,
      find root' "Name" = find root "Name" ->
      get_required typeid_name root "package" "Name" = Unexpected e ->
      load typeid_name root' = Unexpected e) /\
  (forall p,
      load typeid_name root = Ok p ->
      get_required typeid_name root "package" "Name" = Ok (name p) /\
      get_required typeid_name root "package" "Cps-Version" = Ok (cps_version p) /\
      get_components typeid_name root "package" "Components" = Ok (components p) /\
      get_optional typeid_name T_string_vector root "package" "Default-Components"
      = Ok (default_components p)) /\
  (forall decoded key comp rest components e,
      Forall (fun kv => is_Ok (get_component typeid_name kv.1 kv.2) = true) decoded ->
      get_component typeid_name key comp = Unexpected e ->
      get_components_loop typeid_name (decoded ++ (key, comp) :: rest) components
      = Unexpected e) /\
  (forall components,
      get_components typeid_name root "package" "Components" = Ok components ->
      exists compmap,
        index root "Components" = Ok compmap /\
        forall key comp,
          (key, comp) ∈ entries compmap ->
          is_Ok (get_component typeid_name key comp) = true /\
          is_Some (components !! key)).
Proof.
  repeat apply conj.
  - intros e Hn. unfold load. rewrite Hn. reflexivity.
  - intros n e Hn Hv. unfold load. rewrite Hn, Hv. reflexivity.
  - intros n v e Hn Hv Hc. unfold load. rewrite Hn, Hv, Hc. reflexivity.
  - intros n v c e Hn Hv Hc Hd. unfold load. rewrite Hn, Hv, Hc, Hd. reflexivity.
  - intros root' e Hsame Hn. unfold load.
    rewrite (get_required_find _ root' root "package" "Name" Hsame), Hn.
    reflexivity.
  - intros p. unfold load.
    destruct (get_required typeid_name root "package" "Name"); try discriminate.
    destruct (get_required typeid_name root "package" "Cps-Version"); try discriminate.
    destruct (get_components typeid_name root "package" "Components"); try discriminate.
    destruct (get_optional typeid_name T_string_vector root "package" "Default-Components");
      try discriminate.
    simpl. intros [= <-]. auto.
  - apply get_components_loop_stops.
  - intros components Hc.
    destruct (get_components_Ok_inv _ _ _ _ _ Hc) as (entry & rest & Hm & Hi).
    exists (objectValue (entry :: rest)). split; [exact Hi|].
    rewrite (get_components_entries _ _ _ _ _ _ Hm Hi) in Hc.
    apply (get_components_loop_complete _ _ _ _ Hc).
Qed.

Lemma load_first_failure_witness :
  load (fun _ => "")
       (objectValue [("Cps-Version", intValue 1);
                     ("Components",
                      objectValue [("lib", objectValue [("Type", stringValue "bogus")])])])
  = Unexpected "Required field Name in package is missing!"
  /\ load (fun _ => "")
          (objectValue [("Name", stringValue "zlib");
                        ("Cps-Version", intValue 1);
                        ("Components", objectValue [])])
     = Unexpected "Optional field Cps-Version in package is not of type !".
Proof.
  split.
  - exact (proj1 (load_first_failure (fun _ => "")
             (objectValue [("Cps-Version", intValue 1);
                           ("Components",
                            objectValue [("lib", objectValue [("Type", stringValue "bogus")])])]))
             _ eq_refl).
  - exact (proj1 (proj2 (load_first_failure (fun _ => "")
             (objectValue [("Name", stringValue "zlib");
                           ("Cps-Version", intValue 1);
                           ("Components", objectValue [])])))
             "zlib" _ eq_refl eq_refl).
Defined.

(** C9: a document with a string [Name], a string [Cps-Version] and a
    [Components] object whose one entry is an object with a [Type] of the
    vocabulary loads, and the package has that name, that version and, under
    the entry's key, a component of the kind the [Type] spells. *)
Theorem load_minimal_document (typeid_name : FieldType -> string)
        (members comp : list (string * Value)) (n v key t : string)
        (kind : ComponentType) :
  find_member members "Name" = Some (stringValue n) ->
  find_member members "Cps-Version" = Some (stringValue v) ->
  find_member members "Components" = Some (objectValue [(key, objectValue comp)]) ->
  find_member members "Default-Components" = None ->
  find_member comp "Type" = Some (stringValue t) ->
  find_member comp "Compile-Flags" = None ->
  find_member comp "Includes" = None ->
  (t, kind) ∈ spellings ->
  load typeid_name (objectValue members)
  = Ok (Build_Package n v {[key := Build_Component kind ∅ ∅]} None).
Proof.
  intros Hn Hv Hcs Hd Ht Hc Hi Hk.
  rewrite (load_minimal _ _ _ _ _ _ _ Hn Hv Hcs Hd Ht Hc Hi).
  apply from_string_Ok_iff in Hk. rewrite Hk. reflexivity.
Qed.

Lemma load_minimal_document_witness :
  load (fun _ => "")
       (objectValue [("Name", stringValue "zlib");
                     ("Cps-Version", stringValue "0.9.0");
                     ("Components",
                      objectValue [("z", objectValue [("Type", stringValue "dylib")])])])
  = Ok (Build_Package "zlib" "0.9.0" {["z" := Build_Component DYLIB ∅ ∅]} None).
Proof.
  apply (load_minimal_document (fun _ => "") _ [("Type", stringValue "dylib")]
           "zlib" "0.9.0" "z" "dylib" DYLIB);
    try reflexivity.
  apply (bool_decide_unpack _). vm_compute. exact I.
Defined.

(** ** An unknown [Type] *)

(** C1 does not hold of the code: a document that differs from a valid
    minimal one only by a [Type] outside the vocabulary makes [load] write
    the diagnostic and abort; no failure value is returned. *)
Theorem load_unknown_type_aborts (typeid_name : FieldType -> string)
        (members comp : list (string * Value)) (n v key t : string) :
  find_member members "Name" = Some (stringValue n) ->
  find_member members "Cps-Version" = Some (stringValue v) ->
  find_member members "Components" = Some (objectValue [(key, objectValue comp)]) ->
  find_member members "Default-Components" = None ->
  find_member comp "Type" = Some (stringValue t) ->
  find_member comp "Compile-Flags" = None ->
  find_member comp "Includes" = None ->
  t ∉ spellings.*1 ->
  load typeid_name (objectValue members) = Abort ("Unknown type: " +:+ t +:+ newline)
  /\ forall e, load typeid_name (objectValue members) <> Unexpected e.
Proof.
  intros Hn Hv Hcs Hd Ht Hc Hi Hk.
  rewrite (load_minimal _ _ _ _ _ _ _ Hn Hv Hcs Hd Ht Hc Hi).
  rewrite (from_string_unknown _ Hk). split; [reflexivity | discriminate].
Qed.

Lemma load_unknown_type_aborts_witness :
  load (fun _ => "")
       (objectValue [("Name", stringValue "zlib");
                     ("Cps-Version", stringValue "0.9.0");
                     ("Components",
                      objectValue [("z", objectValue [("Type", stringValue "bogus")])])])
  = Abort ("Unknown type: bogus" +:+ newline).
Proof.
  apply (load_unknown_type_aborts (fun _ => "") _ [("Type", stringValue "bogus")]
           "zlib" "0.9.0" "z" "bogus");
    try reflexivity.
  apply (bool_decide_unpack _). vm_compute. exact I.
Defined.

(** * Further properties of the loader *)

(** ** Strings are not coerced, list elements are *)

Section Decoding.

Variable typeid_name : FieldType -> string.

Lemma index_member parent name value :
  index parent name = Ok value ->
  value <> nullValue ->
  isMember parent name = Ok true.
Proof.
  destruct parent; try discriminate; unfold index, isMember; simpl.
  - intros [= <-] Hn. contradiction.
  - destruct (find_member members name); simpl; [reflexivity|].
    intros [= <-] Hn. contradiction.
Qed.

Lemma asString_each_Ok elems ret :
  asString_each elems = Ok ret ->
  Forall2 (fun v s => asString v = Ok s) elems ret.
Proof.
  revert ret. induction elems as [|v elems IH]; simpl; intros ret.
  - intros [= <-]. constructor.
  - destruct (asString v) as [s| | |] eqn:Ev; simpl; try discriminate.
    destruct (asString_each elems) as [ret'| | |]; simpl; try discriminate.
    intros [= <-]. constructor; [exact Ev | by apply IH].
Qed.

Lemma asString_each_throws elems :
  forallb scalar elems = false ->
  asString_each elems = LogicError "Type is not convertible to string".
Proof.
  induction elems as [|v elems IH]; simpl; [discriminate|].
  destruct (scalar v) eqn:Ev; simpl.
  - intros Hr. rewrite (IH Hr).
    destruct v; simpl in *; try discriminate; reflexivity.
  - intros _. destruct v; simpl in *; try discriminate; reflexivity.
Qed.

End Decoding.

(** X1: [get_required] returns a string exactly when the member is a JSON
    string, and then that string: a number, boolean or null under a required
    field is never converted. *)
Theorem get_required_Ok_iff (typeid_name : FieldType -> string)
        (parent : Value) (parent_name name s : string) :
  get_required typeid_name parent parent_name name = Ok s <->
  index parent name = Ok (stringValue s).
Proof.
  split.
  - unfold get_required.
    destruct (isMember parent name) as [[|]| | |] eqn:Hm; simpl; try discriminate.
    destruct (isMember_index_object _ _ Hm) as [value Hi].
    rewrite (get_optional_string _ _ _ _ value Hm Hi).
    destruct value; simpl; try discriminate.
    intros [= <-]. exact Hi.
  - intros Hi.
    assert (Hm : isMember parent name = Ok true)
      by (apply (index_member _ _ _ Hi); discriminate).
    unfold get_required. rewrite Hm; simpl.
    rewrite (get_optional_string _ _ _ _ _ Hm Hi). reflexivity.
Qed.

Lemma get_required_Ok_iff_witness :
  get_required (fun _ => "") (objectValue [("Name", stringValue "zlib")])
               "package" "Name" = Ok "zlib".
Proof.
  apply (proj2 (get_required_Ok_iff (fun _ => "")
                  (objectValue [("Name", stringValue "zlib")]) "package" "Name" "zlib")).
  reflexivity.
Defined.

(** X2: a required field that is present and not a string fails with the
    message of the optional accessor ("Optional field ... is not of type"),
    naming the field, the parent and the type name. *)
Theorem get_required_wrong_type (typeid_name : FieldType -> string)
        (parent : Value) (parent_name name : string) (value : Value) :
  isMember parent name = Ok true ->
  index parent name = Ok value ->
  isString value = false ->
  get_required typeid_name parent parent_name name
  = Unexpected ("Optional field " +:+ name +:+ " in " +:+ parent_name
                +:+ " is not of type " +:+ typeid_name T_string +:+ "!")
  /\ has_kind WrongFieldType
              ("Optional field " +:+ name +:+ " in " +:+ parent_name
               +:+ " is not of type " +:+ typeid_name T_string +:+ "!").
Proof.
  intros Hm Hi Hs. split.
  - unfold get_required. rewrite Hm; simpl.
    rewrite (get_optional_string _ _ _ _ _ Hm Hi).
    destruct value; simpl in *; try discriminate; reflexivity.
  - exact (optional_mismatch name parent_name (typeid_name T_string)).
Qed.

Lemma get_required_wrong_type_witness :
  get_required (fun _ => "string") (objectValue [("Name", booleanValue true)])
               "package" "Name"
  = Unexpected "Optional field Name in package is not of type string!".
Proof.
  apply (get_required_wrong_type (fun _ => "string")
           (objectValue [("Name", booleanValue true)]) "package" "Name"
           (booleanValue true));
    reflexivity.
Defined.

(** X3: a list field whose elements are all scalars always decodes: every
    element is replaced by its [asString] conversion, in order, so the list
    has the length of the array and non-string elements are accepted. *)
Theorem get_optional_vector_coerces (typeid_name : FieldType -> string)
        (parent : Value) (parent_name name : string) (elems : list Value) :
  isMember parent name = Ok true ->
  index parent name = Ok (arrayValue elems) ->
  forallb scalar elems = true ->
  exists ret,
    get_optional typeid_name T_string_vector parent parent_name name = Ok (Some ret) /\
    Forall2 (fun v s => asString v = Ok s) elems ret /\
    length ret = length elems.
Proof.
  intros Hm Hi Hs. destruct (asString_each_scalars _ Hs) as [ret Hr].
  exists ret. rewrite (get_optional_string_vector _ _ _ _ _ Hm Hi), Hr.
  pose proof (asString_each_Ok _ _ Hr) as HF.
  split; [reflexivity|]. split; [exact HF|].
  symmetry. eapply Forall2_length. exact HF.
Qed.

Lemma get_optional_vector_coerces_witness :
  exists ret,
    get_optional (fun _ => "") T_string_vector
      (objectValue [("Default-Components",
                     arrayValue [stringValue "z"; intValue (-3); nullValue;
                                 booleanValue true])])
      "package" "Default-Components" = Ok (Some ret) /\
    Forall2 (fun v s => asString v = Ok s)
            [stringValue "z"; intValue (-3); nullValue; booleanValue true] ret /\
    length ret = 4.
Proof.
  apply (get_optional_vector_coerces (fun _ => "")
           (objectValue [("Default-Components",
                          arrayValue [stringValue "z"; intValue (-3); nullValue;
                                      booleanValue true])])
           "package" "Default-Components"
           [stringValue "z"; intValue (-3); nullValue; booleanValue true]);
    reflexivity.
Defined.

(** X4: an array or object among the elements of a list field is not
    reported as a failure: the conversion raises [Json::LogicError], both in
    [get_optional] and in the array form of [get_lang_values]. *)
Theorem nested_element_raises (typeid_name : FieldType -> string)
        (parent : Value) (parent_name name : string) (elems : list Value) :
  isMember parent name = Ok true ->
  index parent name = Ok (arrayValue elems) ->
  forallb scalar elems = false ->
  get_optional typeid_name T_string_vector parent parent_name name
  = LogicError "Type is not convertible to string"
  /\ get_lang_values typeid_name parent parent_name name
     = LogicError "Type is not convertible to string".
Proof.
  intros Hm Hi Hs. split.
  - rewrite (get_optional_string_vector _ _ _ _ _ Hm Hi).
    rewrite (asString_each_throws _ Hs). reflexivity.
  - rewrite (get_lang_values_array _ _ _ _ _ Hm Hi).
    rewrite (asString_each_throws _ Hs). reflexivity.
Qed.

Lemma nested_element_raises_witness :
  get_lang_values (fun _ => "")
    (objectValue [("Compile-Flags", arrayValue [stringValue "-O2"; arrayValue []])])
    "Component" "Compile-Flags"
  = LogicError "Type is not convertible to string".
Proof.
  apply (nested_element_raises (fun _ => "")
           (objectValue [("Compile-Flags", arrayValue [stringValue "-O2"; arrayValue []])])
           "Component" "Compile-Flags" [stringValue "-O2"; arrayValue []]);
    reflexivity.
Defined.

(** ** The tables of a component *)

Section Tables.

Variable typeid_name : FieldType -> string.

Lemma lang_list_not_array value name key v :
  isMember value key = Ok true ->
  index value key = Ok v ->
  isArray v = false ->
  lang_list typeid_name value name key
  = Unexpected ("Optional field " +:+ key +:+ " in " +:+ name
                +:+ " is not of type " +:+ typeid_name T_string_vector +:+ "!").
Proof.
  intros Hm Hi Ha. unfold lang_list.
  rewrite (get_optional_string_vector _ _ _ _ _ Hm Hi).
  destruct v; simpl in *; try discriminate; reflexivity.
Qed.

Lemma table_is_Some c cpp fortran (l : KnownLanguages) :
  is_Some (table c cpp fortran !! l).
Proof.
  destruct (table_lookup c cpp fortran) as (Hc & Hcpp & Hf).
  destruct l; eauto.
Qed.

End Tables.

(** X5: a table field that is present and neither an object nor an array
    (null, a number, a string, a boolean) fails with the section message,
    which puts the parent name first and the field name second. *)
Theorem get_lang_values_malformed (typeid_name : FieldType -> string)
        (parent : Value) (parent_name name : string) (value : Value) :
  isMember parent name = Ok true ->
  index parent name = Ok value ->
  isObject value = false ->
  isArray value = false ->
  get_lang_values typeid_name parent parent_name name
  = Unexpected ("Section " +:+ parent_name +:+ " of " +:+ name
                +:+ " is neither an object nor an array!")
  /\ has_kind MalformedSection
              ("Section " +:+ parent_name +:+ " of " +:+ name
               +:+ " is neither an object nor an array!").
Proof.
  intros Hm Hi Ho Ha. split; [|exact (section_malformed parent_name name)].
  unfold get_lang_values. rewrite Hm, Hi; simpl. rewrite Ho, Ha. reflexivity.
Qed.

Lemma get_lang_values_malformed_witness :
  get_lang_values (fun _ => "")
    (objectValue [("Includes", stringValue "/usr/include")]) "Component" "Includes"
  = Unexpected "Section Component of Includes is neither an object nor an array!".
Proof.
  apply (get_lang_values_malformed (fun _ => "")
           (objectValue [("Includes", stringValue "/usr/include")])
           "Component" "Includes" (stringValue "/usr/include"));
    reflexivity.
Defined.

(** X6: in object form the keys are decoded in the order C, C++, Fortran,
    and the first one whose value is not an array fails the whole table; the
    message names that key and, as its parent, the field. *)
Theorem get_lang_values_key_not_array (typeid_name : FieldType -> string)
        (parent : Value) (parent_name name : string) (value : Value) :
  isMember parent name = Ok true ->
  index parent name = Ok value ->
  isObject value = true ->
  (forall v,
      isMember value "C" = Ok true -> index value "C" = Ok v -> isArray v = false ->
      get_lang_values typeid_name parent parent_name name
      = Unexpected ("Optional field C in " +:+ name +:+ " is not of type "
                    +:+ typeid_name T_string_vector +:+ "!")) /\
  (forall c v,
      lang_list typeid_name value name "C" = Ok c ->
      isMember value "C++" = Ok true -> index value "C++" = Ok v -> isArray v = false ->
      get_lang_values typeid_name parent parent_name name
      = Unexpected ("Optional field C++ in " +:+ name +:+ " is not of type "
                    +:+ typeid_name T_string_vector +:+ "!")) /\
  (forall c cpp v,
      lang_list typeid_name value name "C" = Ok c ->
      lang_list typeid_name value name "C++" = Ok cpp ->
      isMember value "Fortran" = Ok true -> index value "Fortran" = Ok v ->
      isArray v = false ->
      get_lang_values typeid_name parent parent_name name
      = Unexpected ("Optional field Fortran in " +:+ name +:+ " is not of type "
                    +:+ typeid_name T_string_vector +:+ "!")).
Proof.
  intros Hm Hi Ho.
  rewrite (get_lang_values_object _ _ _ _ value Hm Hi Ho).
  repeat apply conj.
  - intros v Hk Hv Ha.
    rewrite (lang_list_not_array _ _ _ _ _ Hk Hv Ha). reflexivity.
  - intros c v Hc Hk Hv Ha.
    rewrite Hc, (lang_list_not_array _ _ _ _ _ Hk Hv Ha). reflexivity.
  - intros c cpp v Hc Hcpp Hk Hv Ha.
    rewrite Hc, Hcpp, (lang_list_not_array _ _ _ _ _ Hk Hv Ha). reflexivity.
Qed.

Lemma get_lang_values_key_not_array_witness :
  get_lang_values (fun _ => "vector")
    (objectValue [("Compile-Flags",
                   objectValue [("C", stringValue "-O2"); ("C++", intValue 2)])])
    "Component" "Compile-Flags"
  = Unexpected "Optional field C in Compile-Flags is not of type vector!".
Proof.
  apply (proj1 (get_lang_values_key_not_array (fun _ => "vector")
           (objectValue [("Compile-Flags",
                          objectValue [("C", stringValue "-O2"); ("C++", intValue 2)])])
           "Component" "Compile-Flags"
           (objectValue [("C", stringValue "-O2"); ("C++", intValue 2)])
           eq_refl eq_refl eq_refl) (stringValue "-O2"));
    reflexivity.
Defined.

(** X7: a table [get_lang_values] returns stores either no language or all
    three: it is empty exactly when the field is absent, and when the field
    is present every language has an entry. *)
Theorem get_lang_values_none_or_all (typeid_name : FieldType -> string)
        (parent : Value) (parent_name name : string) (lv : LangValues) :
  get_lang_values typeid_name parent parent_name name = Ok lv ->
  (isMember parent name = Ok false /\ lv = ∅) \/
  (isMember parent name = Ok true /\ forall l : KnownLanguages, is_Some (lv !! l)).
Proof.
  intros H.
  destruct (isMember parent name) as [[|]| | |] eqn:Hm.
  - right. split; [reflexivity|].
    destruct (isMember_index_object _ _ Hm) as [value Hi].
    destruct (isObject value) eqn:Ho; [|destruct (isArray value) eqn:Ha].
    + rewrite (get_lang_values_object _ _ _ _ value Hm Hi Ho) in H.
      destruct (lang_list typeid_name value name "C"); try discriminate.
      destruct (lang_list typeid_name value name "C++"); try discriminate.
      destruct (lang_list typeid_name value name "Fortran"); try discriminate.
      simpl in H. injection H as <-. apply table_is_Some.
    + destruct value; try discriminate.
      rewrite (get_lang_values_array _ _ _ _ _ Hm Hi) in H.
      destruct (asString_each elems); try discriminate.
      simpl in H. injection H as <-. apply table_is_Some.
    + destruct (get_lang_values_malformed typeid_name _ parent_name _ _ Hm Hi Ho Ha)
        as [He _].
      rewrite He in H. discriminate H.
  - left. split; [reflexivity|].
    rewrite (get_lang_values_missing _ _ _ _ Hm) in H. by injection H as <-.
  - unfold get_lang_values in H. rewrite Hm in H. discriminate H.
  - unfold get_lang_values in H. rewrite Hm in H. discriminate H.
  - unfold get_lang_values in H. rewrite Hm in H. discriminate H.
Qed.

Lemma get_lang_values_none_or_all_witness :
  (isMember (objectValue [("Compile-Flags", arrayValue [stringValue "-O2"])])
            "Compile-Flags" = Ok false /\ table ["-O2"] ["-O2"] ["-O2"] = ∅) \/
  (isMember (objectValue [("Compile-Flags", arrayValue [stringValue "-O2"])])
            "Compile-Flags" = Ok true /\
   forall l : KnownLanguages, is_Some (table ["-O2"] ["-O2"] ["-O2"] !! l)).
Proof.
  apply (get_lang_values_none_or_all (fun _ => "")
           (objectValue [("Compile-Flags", arrayValue [stringValue "-O2"])])
           "Component" "Compile-Flags").
  reflexivity.
Defined.

(** ** The component map *)

Section Components.

Variable typeid_name : FieldType -> string.

Lemma get_components_loop_dom entries components m :
  get_components_loop typeid_name entries components = Ok m ->
  dom m = dom components ∪ list_to_set entries.*1.
Proof.
  revert components.
  induction entries as [|[k v] entries IH]; intros components; simpl.
  - intros [= <-]. by rewrite (right_id_L ∅ (∪)).
  - destruct (get_component typeid_name k v) as [c| | |]; simpl; try discriminate.
    intros Hl. rewrite (IH _ Hl), dom_insert_L.
    by rewrite (comm_L (∪) {[k]} (dom components)), (assoc_L (∪)).
Qed.

Lemma get_components_loop_lookup entries components m :
  NoDup entries.*1 ->
  get_components_loop typeid_name entries components = Ok m ->
  forall key c,
    m !! key = Some c <->
    (exists comp, (key, comp) ∈ entries /\ get_component typeid_name key comp = Ok c)
    \/ ((key ∉ entries.*1) /\ components !! key = Some c).
Proof.
  revert components.
  induction entries as [|[k v] entries IH]; intros components; simpl.
  - intros _ [= <-] key c. split.
    + intros H. right. split; [apply not_elem_of_nil | exact H].
    + intros [(comp & Hin & _)|[_ H]]; [by apply elem_of_nil in Hin | exact H].
  - intros Hnd Hl. inversion Hnd as [|? ? Hk Hnd']; subst. clear Hnd. rename Hnd' into Hnd.
    destruct (get_component typeid_name k v) as [c0| | |] eqn:Ec; simpl in Hl;
      try discriminate.
    intros key c. rewrite (IH _ Hnd Hl key c). split.
    + intros [(comp & Hin & Hc)|[Hn Hlk]].
      * left. exists comp. split; [apply elem_of_cons; right; exact Hin | exact Hc].
      * destruct (decide (k = key)) as [->|Hne].
        -- rewrite lookup_insert_eq in Hlk. injection Hlk as <-.
           left. exists v. split; [apply elem_of_cons; left; reflexivity | exact Ec].
        -- rewrite lookup_insert_ne in Hlk by exact Hne.
           right. split; [|exact Hlk].
           rewrite not_elem_of_cons. split; [congruence | exact Hn].
    + intros [(comp & Hin & Hc)|[Hn Hlk]].
      * apply elem_of_cons in Hin as [[= -> ->]|Hin].
        -- right. split; [exact Hk|]. rewrite lookup_insert_eq. congruence.
        -- left. eauto.
      * apply not_elem_of_cons in Hn as [Hne Hn].
        right. split; [exact Hn|]. rewrite lookup_insert_ne by congruence. exact Hlk.
Qed.

Lemma load_Ok_inv root p :
  load typeid_name root = Ok p ->
  get_required typeid_name root "package" "Name" = Ok (name p) /\
  get_required typeid_name root "package" "Cps-Version" = Ok (cps_version p) /\
  get_components typeid_name root "package" "Components" = Ok (components p) /\
  get_optional typeid_name T_string_vector root "package" "Default-Components"
  = Ok (default_components p).
Proof.
  unfold load.
  destruct (get_required typeid_name root "package" "Name"); try discriminate.
  destruct (get_required typeid_name root "package" "Cps-Version"); try discriminate.
  destruct (get_components typeid_name root "package" "Components"); try discriminate.
  destruct (get_optional typeid_name T_string_vector root "package" "Default-Components");
    try discriminate.
  simpl. intros [= <-]. auto.
Qed.

Lemma get_components_nonempty parent parent_name name m :
  get_components typeid_name parent parent_name name = Ok m -> m <> ∅.
Proof.
  intros H. destruct (get_components_Ok_inv _ _ _ _ _ H) as ([k v] & rest & Hm & Hi).
  rewrite (get_components_entries _ _ _ _ _ _ Hm Hi) in H.
  destruct (get_components_loop_complete _ _ _ _ H) as [_ Hall].
  assert (Hin : (k, v) ∈ (k, v) :: rest) by (apply elem_of_cons; left; reflexivity).
  destruct (Hall k v Hin) as [_ [c Hc]].
  intros ->. rewrite lookup_empty in Hc. discriminate Hc.
Qed.

End Components.

(** X8: the map [get_components] returns has exactly the keys of the
    [Components] object, and, the keys of an object being distinct, holds
    under each key the component decoded from that entry. *)
Theorem get_components_exact (typeid_name : FieldType -> string)
        (parent : Value) (parent_name name : string)
        (entries : list (string * Value)) (m : gmap string Component) :
  index parent "Components" = Ok (objectValue entries) ->
  get_components typeid_name parent parent_name name = Ok m ->
  dom m = list_to_set entries.*1 /\
  (NoDup entries.*1 ->
   forall key c,
     m !! key = Some c <->
     exists comp, (key, comp) ∈ entries /\ get_component typeid_name key comp = Ok c).
Proof.
  intros Hi H.
  destruct (get_components_Ok_inv _ _ _ _ _ H) as (entry & rest & Hm & Hi').
  rewrite Hi in Hi'. injection Hi' as ->.
  rewrite (get_components_entries _ _ _ _ _ _ Hm Hi) in H. split.
  - rewrite (get_components_loop_dom _ _ _ _ H), dom_empty_L.
    by rewrite (left_id_L ∅ (∪)).
  - intros Hnd key c.
    rewrite (get_components_loop_lookup _ _ _ _ Hnd H key c).
    rewrite lookup_empty. split.
    + intros [Hex|[_ Hf]]; [exact Hex | discriminate Hf].
    + intros Hex. left. exact Hex.
Qed.

Lemma get_components_exact_witness :
  dom ({["z" := Build_Component DYLIB ∅ ∅]} : gmap string Component)
  = list_to_set [("z", objectValue [("Type", stringValue "dylib")])].*1.
Proof.
  apply (get_components_exact (fun _ => "")
           (objectValue [("Components",
                          objectValue [("z", objectValue [("Type", stringValue "dylib")])])])
           "package" "Components"
           [("z", objectValue [("Type", stringValue "dylib")])]
           {["z" := Build_Component DYLIB ∅ ∅]}).
  - reflexivity.
  - unfold get_components; simpl. rewrite insert_empty. reflexivity.
Defined.

(** X9: a loaded package always has at least one component. *)
Theorem load_components_nonempty (typeid_name : FieldType -> string)
        (root : Value) (p : Package) :
  load typeid_name root = Ok p -> components p <> ∅.
Proof.
  intros H. destruct (load_Ok_inv _ _ _ H) as (_ & _ & Hc & _).
  exact (get_components_nonempty _ _ _ _ _ Hc).
Qed.

Lemma load_components_nonempty_witness :
  components (Build_Package "zlib" "0.9.0" {["z" := Build_Component DYLIB ∅ ∅]} None)
  <> ∅.
Proof.
  apply (load_components_nonempty (fun _ => "")
           (objectValue [("Name", stringValue "zlib");
                         ("Cps-Version", stringValue "0.9.0");
                         ("Components",
                          objectValue [("z", objectValue [("Type", stringValue "dylib")])])])).
  unfold load, get_components; simpl. rewrite insert_empty. reflexivity.
Defined.

(** X10: an entry of [Components] that is not an object fails the whole map
    with a message naming that entry, once the entries before it have
    decoded. *)
Theorem get_components_entry_not_object (typeid_name : FieldType -> string)
        (parent : Value) (parent_name name : string)
        (decoded rest : list (string * Value)) (key : string) (comp : Value) :
  isMember parent "Components" = Ok true ->
  index parent "Components" = Ok (objectValue (decoded ++ (key, comp) :: rest)) ->
  Forall (fun kv => is_Ok (get_component typeid_name kv.1 kv.2) = true) decoded ->
  isObject comp = false ->
  get_components typeid_name parent parent_name name
  = Unexpected ("Component " +:+ key +:+ " is not an object")
  /\ has_kind WrongFieldType ("Component " +:+ key +:+ " is not an object").
Proof.
  intros Hm Hi Hd Ho. split; [|exact (component_not_object key)].
  assert (He : exists entry tail, (decoded ++ (key, comp) :: rest)%list = entry :: tail)
    by (destruct decoded; simpl; eauto).
  destruct He as (entry & tail & He). rewrite He in Hi.
  rewrite (get_components_entries _ _ _ _ _ _ Hm Hi), <- He.
  apply get_components_loop_stops; [exact Hd|].
  unfold get_component. rewrite Ho. reflexivity.
Qed.

Lemma get_components_entry_not_object_witness :
  get_components (fun _ => "")
    (objectValue [("Components",
                   objectValue [("a", objectValue [("Type", stringValue "archive")]);
                                ("b", arrayValue [])])])
    "package" "Components"
  = Unexpected "Component b is not an object".
Proof.
  apply (get_components_entry_not_object (fun _ => "")
           (objectValue [("Components",
                          objectValue [("a", objectValue [("Type", stringValue "archive")]);
                                       ("b", arrayValue [])])])
           "package" "Components"
           [("a", objectValue [("Type", stringValue "archive")])] []
           "b" (arrayValue []));
    try reflexivity.
  repeat constructor.
Defined.

(** X11: a component object without [Type] fails with the missing-field
    message for "Type" in "Component": the message is the same for every
    component and does not carry the component's name. *)
Theorem get_component_type_missing (typeid_name : FieldType -> string)
        (key : string) (members : list (string * Value)) :
  find_member members "Type" = None ->
  get_component typeid_name key (objectValue members)
  = Unexpected "Required field Type in Component is missing!".
Proof.
  intros Ht. unfold get_component, get_required.
  rewrite (isMember_not_found _ _ Ht). reflexivity.
Qed.

Lemma get_component_type_missing_witness :
  get_component (fun _ => "") "z" (objectValue [("Includes", arrayValue [])])
  = Unexpected "Required field Type in Component is missing!".
Proof.
  apply (get_component_type_missing (fun _ => "") "z" [("Includes", arrayValue [])]).
  reflexivity.
Defined.

(** ** What [load] accepts *)

Section Documents.

Variable typeid_name : FieldType -> string.

Lemma get_component_Ok_inv key comp c :
  get_component typeid_name key comp = Ok c ->
  isObject comp = true /\
  exists t,
    index comp "Type" = Ok (stringValue t) /\
    from_string t = Ok (type c) /\
    get_lang_values typeid_name comp "Component" "Compile-Flags" = Ok (compile_flags c) /\
    get_lang_values typeid_name comp "Component" "Includes" = Ok (includes c).
Proof.
  unfold get_component. destruct (isObject comp); simpl; [|discriminate].
  destruct (get_required typeid_name comp "Component" "Type") as [t| | |] eqn:Et;
    simpl; try discriminate.
  destruct (from_string t) as [ty| | |] eqn:Ety; simpl; try discriminate.
  destruct (get_lang_values typeid_name comp "Component" "Compile-Flags")
    as [cf| | |]; simpl; try discriminate.
  destruct (get_lang_values typeid_name comp "Component" "Includes")
    as [inc| | |]; simpl; try discriminate.
  intros [= <-]. split; [reflexivity|]. exists t.
  apply get_required_Ok_iff in Et. auto.
Qed.

Lemma get_lang_values_find v1 v2 parent_name name :
  find v1 name = find v2 name ->
  get_lang_values typeid_name v1 parent_name name
  = get_lang_values typeid_name v2 parent_name name.
Proof.
  intros H. unfold get_lang_values, isMember, index. rewrite H. reflexivity.
Qed.

Lemma get_components_find r1 r2 parent_name name :
  find r1 "Components" = find r2 "Components" ->
  get_components typeid_name r1 parent_name name
  = get_components typeid_name r2 parent_name name.
Proof.
  intros H. unfold get_components, isMember, index. rewrite H. reflexivity.
Qed.

Lemma get_optional_None_iff T parent parent_name name :
  get_optional typeid_name T parent parent_name name = Ok None <->
  isMember parent name = Ok false.
Proof.
  split; [|apply get_optional_absent].
  intros H. destruct (isMember parent name) as [[|]| | |] eqn:Hm.
  - destruct (get_optional_present typeid_name T _ parent_name _ Hm H).
  - reflexivity.
  - unfold get_optional in H. rewrite Hm in H. discriminate H.
  - unfold get_optional in H. rewrite Hm in H. discriminate H.
  - unfold get_optional in H. rewrite Hm in H. discriminate H.
Qed.


End Documents.

(** X12: [load] returns a package only for a document that has the required
    shape: [Name] and [Cps-Version] are JSON strings, the ones of the
    package; [Components] is an object with at least one entry, each entry an
    object whose [Type] is a string of the vocabulary; and the package has no
    default components exactly when [Default-Components] is absent. *)
Theorem load_Ok_document (typeid_name : FieldType -> string)
        (root : Value) (p : Package) :
  load typeid_name root = Ok p ->
  index root "Name" = Ok (stringValue (name p)) /\
  index root "Cps-Version" = Ok (stringValue (cps_version p)) /\
  (exists entry rest,
      index root "Components" = Ok (objectValue (entry :: rest)) /\
      forall key comp,
        (key, comp) ∈ entry :: rest ->
        isObject comp = true /\
        exists t kind,
          index comp "Type" = Ok (stringValue t) /\ (t, kind) ∈ spellings) /\
  (default_components p = None <-> isMember root "Default-Components" = Ok false).
Proof.
  intros H. destruct (load_Ok_inv _ _ _ H) as (Hn & Hv & Hc & Hd).
  apply get_required_Ok_iff in Hn. apply get_required_Ok_iff in Hv.
  split; [exact Hn|]. split; [exact Hv|]. split.
  - destruct (get_components_Ok_inv _ _ _ _ _ Hc) as (entry & rest & Hm & Hi).
    exists entry, rest. split; [exact Hi|].
    rewrite (get_components_entries _ _ _ _ _ _ Hm Hi) in Hc.
    destruct (get_components_loop_complete _ _ _ _ Hc) as [_ Hall].
    intros key comp Hin. destruct (Hall key comp Hin) as [Hok _].
    destruct (get_component typeid_name key comp) as [c| | |] eqn:Ec;
      try discriminate.
    destruct (get_component_Ok_inv _ _ _ _ Ec) as (Ho & t & Ht & Hty & _).
    split; [exact Ho|]. exists t, (type c). split; [exact Ht|].
    by apply from_string_Ok_iff.
  - rewrite <- (get_optional_None_iff typeid_name T_string_vector root "package").
    split; [intros E; rewrite Hd, E; reflexivity|].
    intros E. rewrite E in Hd. by injection Hd.
Qed.

Lemma load_Ok_document_witness :
  index (objectValue [("Name", stringValue "zlib");
                      ("Cps-Version", stringValue "0.9.0");
                      ("Components",
                       objectValue [("z", objectValue [("Type", stringValue "dylib")])])])
        "Name"
  = Ok (stringValue "zlib").
Proof.
  apply (load_Ok_document (fun _ => "")
           (objectValue [("Name", stringValue "zlib");
                         ("Cps-Version", stringValue "0.9.0");
                         ("Components",
                          objectValue [("z", objectValue [("Type", stringValue "dylib")])])])
           (Build_Package "zlib" "0.9.0" {["z" := Build_Component DYLIB ∅ ∅]} None)).
  unfold load, get_components; simpl. rewrite insert_empty. reflexivity.
Defined.

(** X13: [load] reads the document through its four fields only, and a
    component through [Type], [Compile-Flags] and [Includes] only: documents
    (component objects) that agree on these give the same result, whatever
    other members they have and in whatever order. *)
Theorem load_ignores_other_fields (typeid_name : FieldType -> string) :
  (forall root root',
      (forall key,
          key ∈ ["Name"; "Cps-Version"; "Components"; "Default-Components"] ->
          find root' key = find root key) ->
      load typeid_name root' = load typeid_name root) /\
  (forall key members members',
      (forall field,
          field ∈ ["Type"; "Compile-Flags"; "Includes"] ->
          find_member members' field = find_member members field) ->
      get_component typeid_name key (objectValue members')
      = get_component typeid_name key (objectValue members)).
Proof.
  split.
  - intros root root' Hsame. unfold load.
    rewrite (get_required_find _ root' root "package" "Name")
      by (apply Hsame; rewrite !elem_of_cons; auto).
    rewrite (get_required_find _ root' root "package" "Cps-Version")
      by (apply Hsame; rewrite !elem_of_cons; auto).
    rewrite (get_components_find _ root' root "package" "Components")
      by (apply Hsame; rewrite !elem_of_cons; auto).
    rewrite (get_optional_find _ T_string_vector root' root "package" "Default-Components")
      by (apply Hsame; rewrite !elem_of_cons; auto 6).
    reflexivity.
  - intros key members members' Hsame.
    assert (Hf : forall field,
               field ∈ ["Type"; "Compile-Flags"; "Includes"] ->
               find (objectValue members') field = find (objectValue members) field)
      by (intros field Hin; simpl; f_equal; by apply Hsame).
    unfold get_component; simpl.
    rewrite (get_required_find _ (objectValue members') (objectValue members)
               "Component" "Type")
      by (apply Hf; rewrite !elem_of_cons; auto).
    rewrite (get_lang_values_find _ (objectValue members') (objectValue members)
               "Component" "Compile-Flags")
      by (apply Hf; rewrite !elem_of_cons; auto).
    rewrite (get_lang_values_find _ (objectValue members') (objectValue members)
               "Component" "Includes")
      by (apply Hf; rewrite !elem_of_cons; auto).
    reflexivity.
Qed.

Lemma load_ignores_other_fields_witness :
  load (fun _ => "")
       (objectValue [("Description", stringValue "compression");
                     ("Components", objectValue []);
                     ("Name", stringValue "zlib")])
  = load (fun _ => "")
         (objectValue [("Name", stringValue "zlib"); ("Components", objectValue [])]).
Proof.
  apply (proj1 (load_ignores_other_fields (fun _ => ""))).
  intros key Hin.
  repeat (apply elem_of_cons in Hin as [->|Hin]; [reflexivity|]).
  by apply elem_of_nil in Hin.
Defined.





(** X16: every component kind has one spelling and only one: [from_string]
    reaches each kind, and two strings it maps to the same kind are equal. *)
Theorem from_string_one_spelling :
  (forall t : ComponentType, exists str, from_string str = Ok t) /\
  (forall str1 str2 t,
      from_string str1 = Ok t -> from_string str2 = Ok t -> str1 = str2).
Proof.
  split.
  - intros []; eexists; apply from_string_Ok_iff; unfold spellings;
      rewrite !elem_of_cons; auto 10.
  - intros str1 str2 t H1 H2.
    apply from_string_Ok_iff in H1. apply from_string_Ok_iff in H2.
    unfold spellings in *. rewrite !elem_of_cons, elem_of_nil in H1, H2.
    decompose [or] H1; decompose [or] H2; try contradiction; congruence.
Qed.

Lemma from_string_one_spelling_witness :
  "module" = "module".
Proof.
  apply (proj2 from_string_one_spelling "module" "module" MODULE); reflexivity.
Defined.

(** * The command line *)

(** ** The flags of mode pkgconf *)

Lemma bool_decide_head (x : string) (l : list string) :
  bool_decide (x ∈ x :: l) = true.
Proof. apply bool_decide_eq_true_2, elem_of_cons. by left. Qed.

Lemma bool_decide_tail (x a : string) (l : list string) :
  x <> a -> bool_decide (x ∈ a :: l) = bool_decide (x ∈ l).
Proof.
  intros Hne. apply bool_decide_ext. rewrite elem_of_cons. split; [|by right].
  intros [->|H]; [contradiction | exact H].
Qed.

Lemma pkgconf_args_closed_form args conf conf' :
  pkgconf_args args conf = inr conf' ->
  printer.cflags conf'
  = printer.cflags conf && negb (bool_decide ("--cflags-only-I" ∈ args)) /\
  printer.includes conf'
  = printer.includes conf && negb (bool_decide ("--cflags-only-other" ∈ args)) /\
  printer.defines conf'
  = printer.defines conf && negb (bool_decide ("--cflags-only-I" ∈ args)).
Proof.
  revert conf. induction args as [|arg rest IH]; intros conf; simpl.
  - intros [= <-]. rewrite !andb_true_r. auto.
  - by_flag arg; intros H; try discriminate H;
      destruct (IH _ H) as (Hc & Hi & Hd);
      cbn [printer.cflags printer.includes printer.defines] in *.
    + rewrite !bool_decide_tail by discriminate. auto.
    + rewrite bool_decide_head, bool_decide_tail by discriminate.
      rewrite Hc, Hi, Hd, andb_false_r. auto.
    + rewrite bool_decide_head, bool_decide_tail by discriminate.
      rewrite Hc, Hi, Hd, !andb_false_r. auto.
Qed.

Lemma pkgconf_args_accepts args conf :
  Forall (fun arg => arg ∈ pkgconf_flags) args ->
  exists conf', pkgconf_args args conf = inr conf'.
Proof.
  intros Hall. revert conf.
  induction Hall as [|arg rest Harg _ IH]; intros conf; simpl; [eauto|].
  unfold pkgconf_flags in Harg. rewrite !elem_of_cons, elem_of_nil in Harg.
  by_flag arg; [apply IH ..|].
  decompose [or] Harg; contradiction.
Qed.

Lemma pkgconf_args_rejects known arg rest conf :
  Forall (fun arg => arg ∈ pkgconf_flags) known ->
  arg ∉ pkgconf_flags ->
  pkgconf_args (known ++ arg :: rest) conf = inl arg.
Proof.
  intros Hall Harg. revert conf.
  induction Hall as [|a known Ha _ IH]; intros conf; simpl.
  - unfold pkgconf_flags in Harg. rewrite !not_elem_of_cons in Harg.
    destruct Harg as (H1 & H2 & H3 & _).
    by_flag arg; try contradiction. reflexivity.
  - unfold pkgconf_flags in Ha. rewrite !elem_of_cons, elem_of_nil in Ha.
    by_flag a; [apply IH ..|].
    decompose [or] Ha; contradiction.
Qed.

Lemma pkgconf_args_inr_inv args conf conf' :
  pkgconf_args args conf = inr conf' ->
  Forall (fun arg => arg ∈ pkgconf_flags) args.
Proof.
  revert conf. induction args as [|arg rest IH]; intros conf; simpl.
  - constructor.
  - by_flag arg; intros H; try discriminate H;
      (constructor; [unfold pkgconf_flags; rewrite !elem_of_cons; auto | by eapply IH]).
Qed.

(** X17: the loop accepts an argument list exactly when every argument is
    one of "--cflags", "--cflags-only-other" and "--cflags-only-I"; otherwise
    it stops at the first argument that is none of them. *)
Theorem pkgconf_args_known (args : list string) (conf : printer.Config) :
  ((exists conf', pkgconf_args args conf = inr conf') <->
   Forall (fun arg => arg ∈ pkgconf_flags) args) /\
  (forall known arg rest,
      args = (known ++ arg :: rest)%list ->
      Forall (fun arg => arg ∈ pkgconf_flags) known ->
      arg ∉ pkgconf_flags ->
      pkgconf_args args conf = inl arg).
Proof.
  split.
  - split.
    + intros [conf' H]. exact (pkgconf_args_inr_inv _ _ _ H).
    + apply pkgconf_args_accepts.
  - intros known arg rest -> Hk Ha. by apply pkgconf_args_rejects.
Qed.

Lemma pkgconf_args_known_witness :
  pkgconf_args ["--cflags"; "--libs"; "--bogus"] (printer.Build_Config true true true)
  = inl "--libs".
Proof.
  apply (proj2 (pkgconf_args_known ["--cflags"; "--libs"; "--bogus"]
                  (printer.Build_Config true true true))
           ["--cflags"] "--libs" ["--bogus"]).
  - reflexivity.
  - repeat constructor.
  - apply (bool_decide_unpack _). vm_compute. exact I.
Defined.

(** X18: the flags only switch outputs off: after the loop, compile flags
    and defines are on when they were on and "--cflags-only-I" was not given,
    includes are on when they were on and "--cflags-only-other" was not
    given; "--cflags" changes nothing. *)
Theorem pkgconf_args_switch_off (args : list string) (conf conf' : printer.Config) :
  pkgconf_args args conf = inr conf' ->
  printer.cflags conf'
  = printer.cflags conf && negb (bool_decide ("--cflags-only-I" ∈ args)) /\
  printer.includes conf'
  = printer.includes conf && negb (bool_decide ("--cflags-only-other" ∈ args)) /\
  printer.defines conf'
  = printer.defines conf && negb (bool_decide ("--cflags-only-I" ∈ args)).
Proof. apply pkgconf_args_closed_form. Qed.

Lemma pkgconf_args_switch_off_witness :
  printer.cflags (printer.Build_Config false false false)
  = true && negb (bool_decide ("--cflags-only-I" ∈
                                 ["--cflags-only-I"; "--cflags"; "--cflags-only-other"])).
Proof.
  apply (pkgconf_args_switch_off
           ["--cflags-only-I"; "--cflags"; "--cflags-only-other"]
           (printer.Build_Config true true true)
           (printer.Build_Config false false false)).
  reflexivity.
Defined.

(** X19: the order and the repetition of the flags do not matter: two
    argument lists with the same elements that the loop accepts leave the
    same configuration. *)
Theorem pkgconf_args_same_flags (args args' : list string)
        (conf conf1 conf2 : printer.Config) :
  (forall arg, arg ∈ args <-> arg ∈ args') ->
  pkgconf_args args conf = inr conf1 ->
  pkgconf_args args' conf = inr conf2 ->
  conf1 = conf2.
Proof.
  intros Hsame H1 H2.
  destruct (pkgconf_args_closed_form _ _ _ H1) as (Hc1 & Hi1 & Hd1).
  destruct (pkgconf_args_closed_form _ _ _ H2) as (Hc2 & Hi2 & Hd2).
  rewrite (bool_decide_ext _ _ (Hsame "--cflags-only-I")) in Hc1, Hd1.
  rewrite (bool_decide_ext _ _ (Hsame "--cflags-only-other")) in Hi1.
  destruct conf1, conf2; simpl in *. congruence.
Qed.

Lemma pkgconf_args_same_flags_witness :
  printer.Build_Config false false false = printer.Build_Config false false false.
Proof.
  apply (pkgconf_args_same_flags
           ["--cflags-only-I"; "--cflags-only-other"]
           ["--cflags-only-other"; "--cflags-only-I"; "--cflags-only-other"]
           (printer.Build_Config true true true)).
  - intros arg. rewrite !elem_of_cons, elem_of_nil. tauto.
  - reflexivity.
  - reflexivity.
Defined.

(** ** main *)

Section MainProperties.

Variable typeid_name : FieldType -> string.
Variable document : string -> Value.
Variable conf0 : printer.Config.

Lemma println_one (arg : string) :
  (arg +:+ "") +:+ newline = arg +:+ newline.
Proof.
  induction arg as [|c arg IH]; [reflexivity|].
  change (String c ((arg +:+ "") +:+ newline) = String c (arg +:+ newline)).
  f_equal. exact IH.
Qed.

Lemma main_three argv :
  length argv < 3 ->
  main typeid_name document conf0 argv
  = Returns 1 ("Error: Got wrong number of arguments, expected at least 3" +:+ newline).
Proof.
  destruct argv as [|a0 [|mode [|cps args]]]; simpl; intros H;
    [reflexivity | reflexivity | reflexivity | lia].
Qed.

Lemma main_Pkgconf_inv argv package conf :
  main typeid_name document conf0 argv = Pkgconf package conf ->
  exists a0 cps args,
    argv = a0 :: "pkgconf" :: cps :: args /\
    load typeid_name (document cps) = Ok package /\
    pkgconf_args args conf0 = inr conf.
Proof.
  destruct argv as [|a0 [|mode [|cps args]]]; simpl; try discriminate.
  destruct (load typeid_name (document cps)) as [p| | |] eqn:Hl; try discriminate.
  destruct (String.eqb_spec mode "pkgconf") as [->|Hne]; [|discriminate].
  destruct (pkgconf_args args conf0) as [arg|c] eqn:Ha; [discriminate|].
  intros [= <- <-]. exists a0, cps, args. auto.
Qed.

Lemma main_Returns_inv argv status stderr :
  main typeid_name document conf0 argv = Returns status stderr ->
  status = 1%Z.
Proof.
  destruct argv as [|a0 [|mode [|cps args]]]; simpl; try (by intros [= <- _]).
  destruct (load typeid_name (document cps)) as [p| | |]; try discriminate.
  destruct (String.eqb mode "pkgconf"); [|by intros [= <- _]].
  destruct (pkgconf_args args conf0); [by intros [= <- _] | discriminate].
Qed.

End MainProperties.

(** X20: [main] calls the printer exactly when it is given at least the
    program name, the mode "pkgconf" and a path, the document at the path
    loads, and every further argument is a known flag; the printer gets the
    loaded package and the configuration the flags leave. *)
Theorem main_prints_iff (typeid_name : FieldType -> string)
        (document : string -> Value) (conf0 : printer.Config)
        (argv : list string) (package : Package) (conf : printer.Config) :
  main typeid_name document conf0 argv = Pkgconf package conf <->
  exists a0 cps args,
    argv = a0 :: "pkgconf" :: cps :: args /\
    load typeid_name (document cps) = Ok package /\
    pkgconf_args args conf0 = inr conf.
Proof.
  split; [apply main_Pkgconf_inv|].
  intros (a0 & cps & args & -> & Hl & Ha). simpl. rewrite Hl, Ha. reflexivity.
Qed.

Lemma main_prints_iff_witness :
  main (fun _ => "")
       (fun _ => objectValue [("Name", stringValue "zlib");
                              ("Cps-Version", stringValue "0.9.0");
                              ("Components",
                               objectValue [("z", objectValue [("Type", stringValue "dylib")])])])
       (printer.Build_Config true true true)
       ["cps-config"; "pkgconf"; "zlib.cps"; "--cflags-only-I"]
  = Pkgconf (Build_Package "zlib" "0.9.0" {["z" := Build_Component DYLIB ∅ ∅]} None)
            (printer.Build_Config false true false).
Proof.
  apply (proj2 (main_prints_iff (fun _ => "") _ _ _ _ _)).
  exists "cps-config", "zlib.cps", ["--cflags-only-I"].
  split; [reflexivity|]. split; [|reflexivity].
  unfold load, get_components; simpl. rewrite insert_empty. reflexivity.
Defined.

(** X21: whenever [main] returns without calling the printer, the exit
    status is 1. *)
Theorem main_status (typeid_name : FieldType -> string)
        (document : string -> Value) (conf0 : printer.Config)
        (argv : list string) (status : Z) (stderr : string) :
  main typeid_name document conf0 argv = Returns status stderr ->
  status = 1%Z.
Proof. apply main_Returns_inv. Qed.

Lemma main_status_witness : 1%Z = 1%Z.
Proof.
  apply (main_status (fun _ => "") (fun _ => nullValue)
           (printer.Build_Config true true true) ["cps-config"] 1
           ("Error: Got wrong number of arguments, expected at least 3" +:+ newline)).
  reflexivity.
Defined.

(** X22: [main] checks in this order: the number of arguments, before the
    file is read; the document, whose failure is thrown as a runtime error
    whatever the mode and the flags are; the mode, whatever the flags are;
    and the flags last. *)
Theorem main_order (typeid_name : FieldType -> string)
        (document : string -> Value) (conf0 : printer.Config) :
  (forall argv,
      length argv < 3 ->
      main typeid_name document conf0 argv
      = Returns 1 ("Error: Got wrong number of arguments, expected at least 3"
                   +:+ newline)) /\
  (forall a0 mode cps args e,
      load typeid_name (document cps) = Unexpected e ->
      main typeid_name document conf0 (a0 :: mode :: cps :: args) = runtime_error e) /\
  (forall a0 mode cps args package,
      load typeid_name (document cps) = Ok package ->
      mode <> "pkgconf" ->
      main typeid_name document conf0 (a0 :: mode :: cps :: args)
      = Returns 1 ("Unknown mode " +:+ mode +:+ newline)) /\
  (forall a0 cps args package arg,
      load typeid_name (document cps) = Ok package ->
      pkgconf_args args conf0 = inl arg ->
      main typeid_name document conf0 (a0 :: "pkgconf" :: cps :: args)
      = Returns 1 ("Unknown command like argument " +:+ arg +:+ newline)).
Proof.
  repeat apply conj.
  - apply main_three.
  - intros a0 mode cps args e Hl. simpl. rewrite Hl. reflexivity.
  - intros a0 mode cps args package Hl Hm. simpl. rewrite Hl.
    destruct (String.eqb_spec mode "pkgconf"); [contradiction|].
    exact (f_equal (fun s => Returns 1 ("Unknown mode " +:+ s)) (println_one mode)).
  - intros a0 cps args package arg Hl Ha. simpl. rewrite Hl, Ha.
    exact (f_equal (fun s => Returns 1 ("Unknown command like argument " +:+ s))
                   (println_one arg)).
Qed.

Lemma main_order_witness :
  main (fun _ => "") (fun _ => objectValue [("Cps-Version", stringValue "0.9.0")])
       (printer.Build_Config true true true)
       ["cps-config"; "meson"; "zlib.cps"; "--bogus"]
  = runtime_error "Required field Name in package is missing!".
Proof.
  apply (proj1 (proj2 (main_order (fun _ => "")
           (fun _ => objectValue [("Cps-Version", stringValue "0.9.0")])
           (printer.Build_Config true true true)))).
  reflexivity.
Defined.
